(** * setup.py - the interactive configuration wizard of mc-status-bot

    A shallow embedding of [src/setup.py].  The script talks to a terminal
    ([input], [print]), to one file ([config.yml], through PyYAML) and to the
    import system ([import yaml]).  These are the fields of [world]; every
    function of the script becomes a computation in the monad [M], which
    threads the world and ends in a value, a raised exception, or in
    [Diverge] when the iteration budget of a [while True] loop is used up.

    The budget is the argument [fuel] of every function that loops or calls
    one that does: each loop may go round [fuel] times.  That a call returns
    is stated for every budget above the number of rounds it needs; that it
    does not return is stated as [Diverge] for every budget.

    Conventions.
    - Strings are sequences of ASCII characters; [lower] and [int_of_str]
      model [str.lower] and [int(str)] on that alphabet.
    - [stdin] is the whole (possibly unending) sequence of lines the operator
      will type, [pos] the number of lines read so far; a line [None] is the
      end of input, on which [input] raises [EOFError].
    - A Python dict is passed by reference and mutated in place; here the
      document is passed in and the updated document is returned. *)

From Stdlib Require Import ZArith Ascii String List.
From stdpp Require Import base strings list gmap fin_maps pretty.

(** ** Python values and the builtins the script uses *)

Inductive value : Type :=
| VNone
| VStr (s : string)
| VInt (z : Z).

#[global] Instance value_eq_dec : EqDecision value.
Proof. solve_decision. Defined.

(** [bool(v)]: what [if v] and [not v] test. *)
Definition truthy (v : value) : bool :=
  match v with
  | VNone => false
  | VStr s => negb (String.eqb s EmptyString)
  | VInt z => negb (Z.eqb z 0)
  end.

(** [str(v)], which is what an f-string field [{v}] renders. *)
Definition py_str (v : value) : string :=
  match v with
  | VNone => "None"
  | VStr s => s
  | VInt z => pretty z
  end.

(** [x in [a, b, ...]] on strings. *)
Definition str_in (x : string) (l : list string) : bool :=
  existsb (String.eqb x) l.

(** [sep.join(l)]. *)
Fixpoint join (sep : string) (l : list string) : string :=
  match l with
  | [] => EmptyString
  | [x] => x
  | x :: l' => x +:+ sep +:+ join sep l'
  end.

Definition lower_ascii (c : ascii) : ascii :=
  let n := nat_of_ascii c in
  if Nat.leb 65 n && Nat.leb n 90 then ascii_of_nat (n + 32) else c.

(** [s.lower()]. *)
Fixpoint lower (s : string) : string :=
  match s with
  | EmptyString => EmptyString
  | String c s' => String (lower_ascii c) (lower s')
  end.

(** *** [int(s)] for a string [s]

    Surrounding whitespace is dropped, one sign is allowed, and the rest
    must be decimal digits, where single underscores may separate digits.
    (The interpreter's cap on the number of digits is not modelled.) *)

Definition is_space (c : ascii) : bool :=
  let n := nat_of_ascii c in
  (Nat.leb 9 n && Nat.leb n 13) || (Nat.leb 28 n && Nat.leb n 32).

Definition digit_of (c : ascii) : option Z :=
  let n := nat_of_ascii c in
  if Nat.leb 48 n && Nat.leb n 57 then Some (Z.of_nat (n - 48)) else None.

Fixpoint lstrip (l : list ascii) : list ascii :=
  match l with
  | c :: l' => if is_space c then lstrip l' else l
  | [] => []
  end.

Definition strip (l : list ascii) : list ascii :=
  rev (lstrip (rev (lstrip l))).

(** [digits acc prev l]: [acc] is the number read so far, [prev] tells
    whether the previous character was a digit. *)
Fixpoint digits (acc : Z) (prev : bool) (l : list ascii) : option Z :=
  match l with
  | [] => if prev then Some acc else None
  | c :: l' =>
    match digit_of c with
    | Some d => digits (10 * acc + d)%Z true l'
    | None =>
      if Ascii.eqb c "_"%char && prev then digits acc false l' else None
    end
  end.

Definition int_of_str (s : string) : option Z :=
  match strip (list_ascii_of_string s) with
  | c :: l' =>
    if Ascii.eqb c "-"%char then Z.opp <$> digits 0 false l'
    else if Ascii.eqb c "+"%char then digits 0 false l'
    else digits 0 false (c :: l')
  | [] => None
  end.

(** ** Exceptions, the world, and the monad *)

Inductive exn : Type :=
| EOFError
| ValueError (msg : string)
| TypeError
| AttributeError
| NameError (name : string)
| ImportError
| FileNotFoundError
| OSError (msg : string).

Inductive result (A : Type) : Type :=
| Ok (a : A)
| Raise (e : exn)
| Diverge.
Arguments Ok {A} a.
Arguments Raise {A} e.
Arguments Diverge {A}.

(** [int(v)]: an integer is returned as it is, a string is parsed, and
    [None] is a [TypeError]. *)
Definition py_int (v : value) : result Z :=
  match v with
  | VInt z => Ok z
  | VStr s =>
    match int_of_str s with
    | Some z => Ok z
    | None => Raise (ValueError "invalid literal for int() with base 10")
    end
  | VNone => Raise TypeError
  end.

(** What the script does to its surroundings, in order. *)
Inductive event : Type :=
| EPrompt (text : string)          (* [input(text)] showed its prompt *)
| EPrint (text : string)           (* [print(text)] *)
| EDump (d : gmap string value).   (* [yaml.dump(d, f)] on config.yml *)

Record world : Type := World {
  stdin : nat -> option string;
  pos : nat;
  console : list event;
  yaml_importable : bool;
  config_yml : option (gmap string value)
}.

Definition M (A : Type) : Type := world -> result A * world.

Definition ret {A} (a : A) : M A := fun w => (Ok a, w).
Definition raise {A} (e : exn) : M A := fun w => (Raise e, w).
Definition diverge {A} : M A := fun w => (Diverge, w).

Definition bind {A B} (m : M A) (k : A -> M B) : M B :=
  fun w =>
    match m w with
    | (Ok a, w') => k a w'
    | (Raise e, w') => (Raise e, w')
    | (Diverge, w') => (Diverge, w')
    end.

Notation "'let*' x ':=' m 'in' k" := (bind m (fun x => k))
  (at level 10, x name, m at level 100, k at level 200).
Notation "m ';;' k" := (bind m (fun _ => k))
  (at level 100, k at level 200, right associativity).

(** [try: m  except E: h], for the exceptions [E] selected by [handles]. *)
Definition try_except {A} (m : M A) (handles : exn -> bool) (h : M A) : M A :=
  fun w =>
    match m w with
    | (Raise e, w') => if handles e then h w' else (Raise e, w')
    | r => r
    end.

Definition emit (e : event) (w : world) : world :=
  World (stdin w) (pos w) (console w ++ [e]) (yaml_importable w) (config_yml w).

Definition advance (w : world) : world :=
  World (stdin w) (S (pos w)) (console w) (yaml_importable w) (config_yml w).

Definition store (d : gmap string value) (w : world) : world :=
  World (stdin w) (pos w) (console w) (yaml_importable w) (Some d).

(** [input(text)]: show the prompt, then read one line. *)
Definition input (text : string) : M string :=
  fun w =>
    let w1 := emit (EPrompt text) w in
    match stdin w (pos w) with
    | Some line => (Ok line, advance w1)
    | None => (Raise EOFError, w1)
    end.

Definition print (text : string) : M unit :=
  fun w => (Ok tt, emit (EPrint text) w).

(** [import yaml]. *)
Definition import_yaml : M unit :=
  fun w => if yaml_importable w then (Ok tt, w) else (Raise ImportError, w).

(** [with open("config.yml", "w") as f: yaml.dump(d, f)]. *)
Definition dump_config (d : gmap string value) : M unit :=
  fun w => (Ok tt, store d (emit (EDump d) w)).

(** [with open("config.yml", "r") as f: yaml.safe_load(f)]; the file, when
    it is there, holds a mapping. *)
Definition load_config : M (gmap string value) :=
  fun w =>
    match config_yml w with
    | Some d => (Ok d, w)
    | None => (Raise FileNotFoundError, w)
    end.

(** [os.path.isfile("config.yml")]. *)
Definition isfile_config : M bool :=
  fun w => (Ok (bool_decide (is_Some (config_yml w))), w).

(** ** The two prompting primitives *)

(** [y_n(q)], lines 35-41. *)
Fixpoint y_n (fuel : nat) (q : string) : M bool :=
  match fuel with
  | O => diverge
  | S fuel' =>
    let* ri := input (q +:+ " (y/n): ") in
    if str_in (lower ri) ["yes"; "y"] then ret true
    else if str_in (lower ri) ["no"; "n"] then ret false
    else y_n fuel' q
  end.

(** The two assignments to [default_text], lines 44-45. *)
Definition default_text (default : value) (optional : bool) : string :=
  let default_text :=
    if truthy default then " [" +:+ py_str default +:+ "]" else " []" in
  if optional then default_text else EmptyString.

(** The [while True] loop of [get_info], lines 47-57; [dt] is
    [default_text]. *)
Fixpoint get_info_loop (fuel : nat) (question dt : string)
    (default : value) (optional : bool) : M value :=
  match fuel with
  | O => diverge
  | S fuel' =>
    let* result := input (question +:+ dt +:+ ": ") in
    if negb (truthy (VStr result)) && optional then ret default
    else if negb optional && negb (truthy (VStr result)) then
      get_info_loop fuel' question dt default optional
    else ret (VStr result)
  end.

(** [get_info(question, *, default=None, optional=True)], lines 43-57. *)
Definition get_info (fuel : nat) (question : string)
    (default : value) (optional : bool) : M value :=
  get_info_loop fuel question (default_text default optional) default optional.

(** ** Options, lines 60-171 *)

(** The class an option object was created from; it selects the [prompt]
    method that runs. *)
Inductive class : Type :=
| CConfigOption
| CBotToken
| CPrefix
| CServerType
| CServerIP
| CRefreshRate
| CMaintenceModeDetection.

Definition nl : string := String (ascii_of_nat 10) EmptyString.

Module ConfigOption.

Record t : Type := mk {
  kind : class;
  name : string;
  help : string;
  default : value;
  optional : bool
}.

(** [__init__(self, name, help, *, default=None, optional=True)]. *)
Definition init (k : class) (name help : string)
    (default : value) (optional : bool) : result t :=
  if truthy default && negb optional then
    Raise (ValueError "this option is optional yet a default has been set")
  else Ok (mk k name help default optional).

Definition prompt (fuel : nat) (self : t) : M value :=
  let* result := get_info fuel (help self) (default self) (optional self) in
  ret result.

End ConfigOption.

Module BotToken.

Definition init : result ConfigOption.t :=
  ConfigOption.init CBotToken "bot-token" "Enter the token for the bot"
    VNone false.

Definition prompt (fuel : nat) (self : ConfigOption.t) : M value :=
  let description :=
    ConfigOption.help self +:+
    ("." +:+ nl +:+ "You can get the bot's token from the bot application. "
     +:+ "To learn how to create a bot application, visit https://discordpy.readthedocs.io/en/latest/discord.html") in
  let* result :=
    get_info fuel description (ConfigOption.default self)
      (ConfigOption.optional self) in
  ret result.

End BotToken.

Module Prefix.

Definition init : result ConfigOption.t :=
  ConfigOption.init CPrefix "prefix" "Enter the prefix for the bot"
    (VStr ";") true.

End Prefix.

(** [result.lower()]: only a string has the method. *)
Definition str_lower (v : value) : M string :=
  match v with
  | VStr s => ret (lower s)
  | _ => raise AttributeError
  end.

Module ServerType.

Definition init : result ConfigOption.t :=
  ConfigOption.init CServerType "server-type"
    "Enter the type of Minecraft server (Java or Bedrock)"
    (VStr "java") true.

Fixpoint prompt (fuel : nat) (self : ConfigOption.t) : M value :=
  match fuel with
  | O => diverge
  | S fuel' =>
    let* result :=
      get_info fuel (ConfigOption.help self) (ConfigOption.default self)
        (ConfigOption.optional self) in
    let* result := str_lower result in
    if str_in result ["java"; "bedrock"] then ret (VStr result)
    else
      print "Please enter either Java or Bedrock.";;
      prompt fuel' self
  end.

End ServerType.

Module ServerIP.

Definition init : result ConfigOption.t :=
  ConfigOption.init CServerIP "server-ip"
    "Enter the Minecraft server ip to display status for"
    VNone false.

End ServerIP.

Module RefreshRate.

Definition init : result ConfigOption.t :=
  ConfigOption.init CRefreshRate "refresh-rate"
    "Enter the amount of seconds to wait in between status refreshes"
    (VInt 60) true.

Fixpoint prompt (fuel : nat) (self : ConfigOption.t) : M value :=
  match fuel with
  | O => diverge
  | S fuel' =>
    let* result :=
      get_info fuel (ConfigOption.help self) (ConfigOption.default self)
        (ConfigOption.optional self) in
    match py_int result with
    | Raise (ValueError _) => prompt fuel' self
    | Raise e => raise e
    | Diverge => diverge
    | Ok result =>
      if (30 <=? result)%Z then ret (VInt result)
      else
        print "Seconds must be 30 or higher. This is due to Discord's ratelimit on changing statuses.";;
        prompt fuel' self
    end
  end.

End RefreshRate.

Module MaintenceModeDetection.

Definition init : result ConfigOption.t :=
  ConfigOption.init CMaintenceModeDetection "maintenance-mode-detection"
    "Enter the text to look for in the MOTD"
    VNone true.

Definition gate : string :=
  "Would you like to enable maintenance mode detection? "
  +:+ "This will allow you to specify a substring to search for in the Minecraft server's MOTD. "
  +:+ "If the substring is found, the bot's status is set to maintenance mode "
  +:+ "(DND presence with a maintenance mode message).".

Definition prompt (fuel : nat) (self : ConfigOption.t) : M value :=
  let* enable := y_n fuel gate in
  if negb enable then ret VNone
  else
    let* result := get_info fuel (ConfigOption.help self) VNone false in
    ret result.

End MaintenceModeDetection.

(** [option.prompt()]: the method of the object's class; [Prefix] and
    [ServerIP] inherit the one of [ConfigOption]. *)
Definition prompt (fuel : nat) (option : ConfigOption.t) : M value :=
  match ConfigOption.kind option with
  | CConfigOption | CPrefix | CServerIP => ConfigOption.prompt fuel option
  | CBotToken => BotToken.prompt fuel option
  | CServerType => ServerType.prompt fuel option
  | CRefreshRate => RefreshRate.prompt fuel option
  | CMaintenceModeDetection => MaintenceModeDetection.prompt fuel option
  end.

(** ** The registry, line 174 *)

Fixpoint collect {A} (l : list (result A)) : result (list A) :=
  match l with
  | [] => Ok []
  | Ok a :: l' =>
    match collect l' with
    | Ok r => Ok (a :: r)
    | Raise e => Raise e
    | Diverge => Diverge
    end
  | Raise e :: _ => Raise e
  | Diverge :: _ => Diverge
  end.

(** The six constructor calls, in the order the tuple lists them. *)
Definition OPTIONS_init : result (list ConfigOption.t) :=
  collect [BotToken.init; Prefix.init; ServerType.init; ServerIP.init;
           RefreshRate.init; MaintenceModeDetection.init].

Definition OPTIONS : list ConfigOption.t :=
  match OPTIONS_init with
  | Ok l => l
  | _ => []
  end.

(** [get_option(key)], lines 177-181. *)
Definition get_option (key : string) : option ConfigOption.t :=
  find (fun option => String.eqb (ConfigOption.name option) key) OPTIONS.

(** ** Reconciliation, lines 184-215 *)

Definition has_key (k : string) (config : gmap string value) : bool :=
  match config !! k with
  | Some _ => true
  | None => false
  end.

(** The first loop, lines 199-201: [config[opt] = option.default].
    [get_option] may return [None], whose [.default] does not exist. *)
Fixpoint set_defaults (opts : list string)
    (config : gmap string value) : M (gmap string value) :=
  match opts with
  | [] => ret config
  | opt :: rest =>
    match get_option opt with
    | Some option =>
      set_defaults rest (<[opt := ConfigOption.default option]> config)
    | None => raise AttributeError
    end
  end.

(** The second loop, lines 204-207: [config[opt] = option.prompt()]. *)
Fixpoint ask_missing (fuel : nat) (opts : list string)
    (config : gmap string value) : M (gmap string value) :=
  match opts with
  | [] => ret config
  | opt :: rest =>
    match get_option opt with
    | Some option =>
      let* result := prompt fuel option in
      ask_missing fuel rest (<[opt := result]> config)
    | None => raise AttributeError
    end
  end.

Definition set_to_default_q : string :=
  "Automatically set these options to default? You can come back and change these later.".

Section Reconcile.

(** [missing_opts] is a Python [set] of strings: the order in which it is
    iterated is fixed within one run but is not the order of the registry.
    [set_iter] gives that order for the elements listed in its argument. *)
Variable set_iter : list string -> list string.

(** Lines 187-189: [set(all_keys) - set(config.keys())], as the list of
    its elements in the order of iteration. *)
Definition missing_opts (config : gmap string value) : list string :=
  let all_keys := map ConfigOption.name OPTIONS in
  set_iter (List.filter (fun k => negb (has_key k config)) all_keys).

Definition ensure_config_keys (fuel : nat) (config : gmap string value)
    : M (gmap string value) :=
  import_yaml;;
  let missing_opts := missing_opts config in
  match missing_opts with
  | _ :: _ =>
    let joined := join ", " missing_opts in
    print ("There are missing options in your config file: " +:+ joined);;
    let* set_to_default := y_n fuel set_to_default_q in
    let* config :=
      (if set_to_default then set_defaults missing_opts config
       else ask_missing fuel missing_opts config) in
    dump_config config;;
    print "Successfully updated config";;
    ret config
  | [] =>
    print "Config is up-to-date";;
    ret config
  end.

(** ** Editing, lines 218-255 *)

(** The inner loop, lines 234-242. *)
Fixpoint pick_option (fuel : nat) (all_keys : list string)
    (question : string) : M string :=
  match fuel with
  | O => diverge
  | S fuel' =>
    let* to_change := get_info fuel question VNone false in
    let* to_change := str_lower to_change in
    if str_in to_change all_keys then ret to_change
    else pick_option fuel' all_keys question
  end.

(** The outer loop, lines 233-250. *)
Fixpoint change_options (fuel : nat) (all_keys : list string)
    (question : string) (current_config : gmap string value)
    : M (gmap string value) :=
  match fuel with
  | O => diverge
  | S fuel' =>
    let* to_change := pick_option fuel all_keys question in
    match get_option to_change with
    | Some option =>
      let* change_to := prompt fuel option in
      let current_config := <[to_change := change_to]> current_config in
      let* again := y_n fuel "Change another option?" in
      if negb again then ret current_config
      else change_options fuel' all_keys question current_config
    | None => raise AttributeError
    end
  end.

Definition run_config_adjustments (fuel : nat) (all_keys : list string)
    (formatted : string) : M unit :=
  import_yaml;;
  let* current_config := load_config in
  let* current_config := ensure_config_keys fuel current_config in
  let* change := y_n fuel "Change info in config file?" in
  let view_more :=
    "View more about each option here: https://github.com/Fyssion/mc-status-bot#setup-details" in
  if negb change then ret tt
  else
    let* current_config :=
      change_options fuel all_keys
        ("Options: " +:+ formatted +:+ nl +:+ view_more +:+ nl
         +:+ "Enter option to change")
        current_config in
    dump_config current_config;;
    print "Successfully updated your config".

(** ** The controller, lines 258-303 *)

(** Line 270 calls [update_deps], a name that the script neither defines
    nor imports: evaluating it raises [NameError]. *)
Definition update_deps : M unit := raise (NameError "update_deps").

Definition is_ImportError (e : exn) : bool :=
  match e with
  | ImportError => true
  | _ => false
  end.

(** The loop of lines 261-273.  The body yields [None] on [break] and the
    new value of [loops] when the loop goes round again. *)
Fixpoint import_loop (fuel : nat) (loops : Z) : M unit :=
  match fuel with
  | O => diverge
  | S fuel' =>
    if (loops <? 2)%Z then
      let* next :=
        try_except
          (import_yaml;; ret None)
          is_ImportError
          (print "Oh no! PyYAML is not installed. Trying to fix...";;
           let loops := (loops + 1)%Z in
           update_deps;;
           if (2 <=? loops)%Z then
             raise (OSError "Could not install PyYAML. Try installing it manually.")
           else ret (Some loops)) in
      match next with
      | None => ret tt
      | Some loops => import_loop fuel' loops
      end
    else ret tt
  end.

(** Lines 288-290 of the first run: every option is prompted in the order
    of the registry. *)
Fixpoint ask_all (fuel : nat) (options : list ConfigOption.t)
    (config : gmap string value) : M (gmap string value) :=
  match options with
  | [] => ret config
  | option :: rest =>
    let* result := prompt fuel option in
    ask_all fuel rest (<[ConfigOption.name option := result]> config)
  end.

(** Lines 275-295, what [run_setup] does once [yaml] is imported. *)
Definition configure (fuel : nat) : M unit :=
  let all_keys := map ConfigOption.name OPTIONS in
  let formatted := join ", " all_keys in
  let* config_exists := isfile_config in
  if config_exists then run_config_adjustments fuel all_keys formatted
  else
    print "Config file not found, initiating setup...";;
    let config := ∅ in
    let* config := ask_all fuel OPTIONS config in
    dump_config config;;
    print "Successfully created and setup config".

Definition run_setup (fuel : nat) : M unit :=
  let loops := 0%Z in
  import_loop fuel loops;;
  configure fuel.

Definition main (fuel : nat) : M unit :=
  print "Starting...";;
  run_setup fuel;;
  print "Done. You may now run the bot.".

End Reconcile.

(** ** Worlds to run the script in *)

(** The operator types the lines of [l], then closes the input. *)
Definition lines (l : list string) : nat -> option string :=
  fun i => nth_error l i.

(** The operator types the lines of [l], then [line] again and again. *)
Definition lines_then (l : list string) (line : string)
    : nat -> option string :=
  fun i => Some (nth i l line).

Definition start (input : nat -> option string) (yaml : bool)
    (file : option (gmap string value)) : world :=
  World input 0 [] yaml file.

(** The world after [n] lines were read, each at the prompt [text]. *)
Definition asked (n : nat) (text : string) (w : world) : world :=
  World (stdin w) (pos w + n) (console w ++ replicate n (EPrompt text))
    (yaml_importable w) (config_yml w).

(** A document with every key of the registry. *)
Definition full_config : gmap string value :=
  <["bot-token" := VStr "token"]>
  (<["prefix" := VStr "!"]>
  (<["server-type" := VStr "bedrock"]>
  (<["server-ip" := VStr "mc.example.org"]>
  (<["refresh-rate" := VInt 90]>
  (<["maintenance-mode-detection" := VNone]> ∅))))).

(** A document without ["prefix"] and ["refresh-rate"], and with a key the
    registry does not know. *)
Definition partial_config : gmap string value :=
  <["bot-token" := VStr "token"]>
  (<["server-type" := VStr "bedrock"]>
  (<["server-ip" := VStr "mc.example.org"]>
  (<["maintenance-mode-detection" := VNone]>
  (<["owner" := VStr "someone"]> ∅)))).

(** A document with nothing but a foreign key. *)
Definition foreign_config : gmap string value :=
  <["owner" := VStr "someone"]> ∅.

(** ** Vocabulary for the properties of the whole script *)

Definition is_dump (e : event) : bool :=
  match e with
  | EDump _ => true
  | _ => false
  end.

(** From [w] to [w'] only the terminal was used: lines were read and text
    was shown; the file and the import system are as they were. *)
Definition terminal_only (w w' : world) : Prop :=
  stdin w' = stdin w /\ pos w <= pos w' /\
  yaml_importable w' = yaml_importable w /\
  config_yml w' = config_yml w /\
  exists evs,
    console w' = console w ++ evs /\ Forall (fun e => is_dump e = false) evs.

(** [m] uses nothing but the terminal; when it returns, its value satisfies
    [Q]; when it raises, the exception is [EOFError] and the input is at
    its end. *)
Definition interactive {A} (m : M A) (Q : A -> Prop) : Prop :=
  forall w,
    terminal_only w (snd (m w)) /\
    match fst (m w) with
    | Ok a => Q a
    | Raise e => e = EOFError /\ stdin (snd (m w)) (pos (snd (m w))) = None
    | Diverge => True
    end.

(** The values the [prompt] of an option of the registry lets through. *)
Definition well_formed (o : ConfigOption.t) (v : value) : bool :=
  match ConfigOption.kind o, v with
  | (CBotToken | CPrefix | CServerIP), VStr s =>
    negb (String.eqb s EmptyString)
  | CServerType, VStr s => str_in s ["java"; "bedrock"]
  | CRefreshRate, VInt z => (30 <=? z)%Z
  | CMaintenceModeDetection, VNone => true
  | CMaintenceModeDetection, VStr s => negb (String.eqb s EmptyString)
  | _, _ => false
  end.

(** How a document [c'] may differ from [c] after questions were answered:
    no key is lost, a key that is no option name is as it was, and a value
    that changed is well formed for its option. *)
Definition edited (c c' : gmap string value) : Prop :=
  (forall k, is_Some (c !! k) -> is_Some (c' !! k)) /\
  (forall k, get_option k = None -> c' !! k = c !! k) /\
  (forall k o v,
     get_option k = Some o -> c' !! k = Some v ->
     c !! k = Some v \/ well_formed o v = true).

(** The question of the editor, lines 235-238, for the names of the
    registry. *)
Definition edit_question : string :=
  "Options: " +:+ join ", " (map ConfigOption.name OPTIONS) +:+ nl
  +:+ "View more about each option here: https://github.com/Fyssion/mc-status-bot#setup-details"
  +:+ nl +:+ "Enter option to change".


(** * Properties *)

(** ** The registry *)

Lemma OPTIONS_init_ok : OPTIONS_init = Ok OPTIONS.
Proof. reflexivity. Qed.

Lemma OPTIONS_unfold :
  OPTIONS =
  [ ConfigOption.mk CBotToken "bot-token" "Enter the token for the bot"
      VNone false;
    ConfigOption.mk CPrefix "prefix" "Enter the prefix for the bot"
      (VStr ";") true;
    ConfigOption.mk CServerType "server-type"
      "Enter the type of Minecraft server (Java or Bedrock)" (VStr "java") true;
    ConfigOption.mk CServerIP "server-ip"
      "Enter the Minecraft server ip to display status for" VNone false;
    ConfigOption.mk CRefreshRate "refresh-rate"
      "Enter the amount of seconds to wait in between status refreshes"
      (VInt 60) true;
    ConfigOption.mk CMaintenceModeDetection "maintenance-mode-detection"
      "Enter the text to look for in the MOTD" VNone true ].
Proof. reflexivity. Qed.

Ltac each_option H :=
  rewrite OPTIONS_unfold in H;
  repeat (apply elem_of_cons in H as [-> | H]);
  [ .. | by apply elem_of_nil in H ].

Lemma get_option_name o :
  o ∈ OPTIONS -> get_option (ConfigOption.name o) = Some o.
Proof. intros H. each_option H; reflexivity. Qed.

Lemma get_option_elem key o :
  get_option key = Some o -> o ∈ OPTIONS /\ ConfigOption.name o = key.
Proof.
  unfold get_option. intros H. apply find_some in H as [Hin Heq].
  split; [by apply list_elem_of_In | by apply String.eqb_eq].
Qed.

(** ** Stepping through [input] *)

Lemma input_line text line w :
  stdin w (pos w) = Some line ->
  input text w = (Ok line, advance (emit (EPrompt text) w)).
Proof. unfold input. by intros ->. Qed.

Lemma input_eof text w :
  stdin w (pos w) = None ->
  input text w = (Raise EOFError, emit (EPrompt text) w).
Proof. unfold input. by intros ->. Qed.

Lemma asked_S n text w :
  asked n text (advance (emit (EPrompt text) w)) = asked (S n) text w.
Proof.
  unfold asked, advance, emit. simpl. f_equal; [lia |].
  by rewrite <- app_assoc.
Qed.

Lemma asked_1 text w : advance (emit (EPrompt text) w) = asked 1 text w.
Proof. unfold asked, advance, emit. simpl. f_equal. lia. Qed.

(** ** The yes/no gate *)

Lemma y_n_S fuel q w :
  y_n (S fuel) q w =
  match input (q +:+ " (y/n): ") w with
  | (Ok ri, w') =>
    if str_in (lower ri) ["yes"; "y"] then (Ok true, w')
    else if str_in (lower ri) ["no"; "n"] then (Ok false, w')
    else y_n fuel q w'
  | (Raise e, w') => (Raise e, w')
  | (Diverge, w') => (Diverge, w')
  end.
Proof.
  change (y_n (S fuel) q w) with
    (bind (input (q +:+ " (y/n): "))
       (fun ri =>
          if str_in (lower ri) ["yes"; "y"] then ret true
          else if str_in (lower ri) ["no"; "n"] then ret false
          else y_n fuel q) w).
  unfold bind. destruct (input _ w) as [[ri | e |] w']; try reflexivity.
  by destruct (str_in (lower ri) ["yes"; "y"]), (str_in (lower ri) ["no"; "n"]).
Qed.

Lemma y_n_yes fuel q a w :
  stdin w (pos w) = Some a ->
  str_in (lower a) ["yes"; "y"] = true ->
  y_n (S fuel) q w = (Ok true, asked 1 (q +:+ " (y/n): ") w).
Proof.
  intros Ha Hy. rewrite y_n_S, (input_line _ _ _ Ha), Hy.
  by rewrite asked_1.
Qed.

Lemma y_n_no fuel q a w :
  stdin w (pos w) = Some a ->
  str_in (lower a) ["yes"; "y"] = false ->
  str_in (lower a) ["no"; "n"] = true ->
  y_n (S fuel) q w = (Ok false, asked 1 (q +:+ " (y/n): ") w).
Proof.
  intros Ha Hy Hn. rewrite y_n_S, (input_line _ _ _ Ha), Hy, Hn.
  by rewrite asked_1.
Qed.

(** Whatever [y_n] ends in, all it did was to ask its question, once per
    line it read (and once more when the input ended). *)
Lemma y_n_frame fuel q w r w' :
  y_n fuel q w = (r, w') ->
  exists n,
    console w' = console w ++ replicate n (EPrompt (q +:+ " (y/n): ")) /\
    stdin w' = stdin w /\ pos w <= pos w' /\
    yaml_importable w' = yaml_importable w /\ config_yml w' = config_yml w.
Proof.
  revert w. induction fuel as [| fuel IH]; intros w H.
  - inversion H; subst. exists 0. simpl. by rewrite app_nil_r.
  - rewrite y_n_S in H. unfold input in H.
    destruct (stdin w (pos w)) as [a |] eqn:Ha.
    + destruct (str_in (lower a) ["yes"; "y"]);
        [| destruct (str_in (lower a) ["no"; "n"])].
      1,2: inversion H; subst; exists 1; simpl; repeat split; lia.
      apply IH in H as (n & Hc & Hs & Hp & Hy & Hf). exists (S n).
      simpl in *. rewrite Hc, <- app_assoc. repeat split; auto; lia.
    + inversion H; subst. exists 1. simpl. repeat split; lia.
Qed.

(** ** Reconciliation *)

Lemma filter_nil_forall {A} (f : A -> bool) (l : list A) :
  (forall x, x ∈ l -> f x = false) -> List.filter f l = [].
Proof.
  induction l as [| x l IH]; intros H; [done |]. simpl.
  rewrite (H x) by apply list_elem_of_here.
  apply IH. intros y Hy. apply H. by apply list_elem_of_further.
Qed.

Lemma has_key_false k (config : gmap string value) :
  negb (has_key k config) = true <-> config !! k = None.
Proof. unfold has_key. destruct (config !! k); simpl; split; congruence. Qed.

(** Filling in defaults never fails on names of the registry, leaves the
    world alone, and is described key by key. *)
Lemma set_defaults_spec opts (config : gmap string value) w :
  (forall k, k ∈ opts -> is_Some (get_option k)) ->
  exists config' : gmap string value,
    set_defaults opts config w = (Ok config', w) /\
    forall k,
      config' !! k =
      if bool_decide (k ∈ opts)
      then ConfigOption.default <$> get_option k
      else config !! k.
Proof.
  revert config. induction opts as [| opt rest IH]; intros config H.
  - exists config. split; [done |]. intros k. by rewrite bool_decide_eq_false_2
      by apply not_elem_of_nil.
  - destruct (H opt) as [o Ho]; [apply list_elem_of_here |].
    simpl. rewrite Ho.
    destruct (IH (<[opt := ConfigOption.default o]> config)) as (c & Hc & Hl).
    { intros k Hk. apply H. by apply list_elem_of_further. }
    exists c. split; [done |]. intros k. rewrite Hl.
    destruct (decide (k ∈ rest)) as [Hin | Hout].
    + rewrite !bool_decide_eq_true_2; [done | by apply list_elem_of_further | done].
    + rewrite (bool_decide_eq_false_2 _ Hout).
      destruct (decide (opt = k)) as [-> | Hne].
      * rewrite lookup_insert_eq, bool_decide_eq_true_2, Ho;
          [done | apply list_elem_of_here].
      * rewrite lookup_insert_ne by done.
        rewrite bool_decide_eq_false_2; [done |].
        intros [-> | ?]%elem_of_cons; congruence.
Qed.

Section ReconcileProperties.

Variable set_iter : list string -> list string.
Hypothesis set_iter_perm : forall l, set_iter l ≡ₚ l.

Lemma elem_of_missing (config : gmap string value) k :
  k ∈ missing_opts set_iter config <->
  (exists o, o ∈ OPTIONS /\ ConfigOption.name o = k) /\ config !! k = None.
Proof.
  unfold missing_opts.
  rewrite set_iter_perm, list_elem_of_In, filter_In, has_key_false.
  rewrite <- list_elem_of_In, list_elem_of_fmap.
  split; intros [(o & H1 & H2) H]; split; eauto.
Qed.

(** When the gate is answered with yes, the document that comes back, and
    that is written to the file, has every missing option at its default
    and every other key as before. *)
Lemma ensure_config_keys_defaults fuel (config : gmap string value) w w2 :
  yaml_importable w = true ->
  missing_opts set_iter config <> [] ->
  y_n fuel set_to_default_q
    (emit (EPrint ("There are missing options in your config file: "
                   +:+ join ", " (missing_opts set_iter config))) w)
    = (Ok true, w2) ->
  exists config' : gmap string value,
    ensure_config_keys set_iter fuel config w =
      (Ok config',
       emit (EPrint "Successfully updated config")
         (store config' (emit (EDump config') w2))) /\
    forall k,
      config' !! k =
      match config !! k with
      | Some v => Some v
      | None => ConfigOption.default <$> get_option k
      end.
Proof.
  intros Hy Hne Hgate.
  destruct (set_defaults_spec (missing_opts set_iter config) config w2)
    as (c & Hc & Hl).
  { intros k [(o & Ho & <-) _]%elem_of_missing.
    rewrite get_option_name; eauto. }
  exists c. split.
  - unfold ensure_config_keys, bind, import_yaml. rewrite Hy.
    destruct (missing_opts set_iter config) as [| x rest] eqn:E; [done |].
    unfold print at 1. rewrite Hgate, Hc. reflexivity.
  - intros k. rewrite Hl. case_bool_decide as Hk.
    + apply elem_of_missing in Hk as [_ ->]. done.
    + destruct (config !! k) eqn:Ek; [done |].
      destruct (get_option k) as [o |] eqn:Eo; [| done].
      apply get_option_elem in Eo as [Ho Hn].
      exfalso. apply Hk, elem_of_missing. eauto.
Qed.

Lemma missing_opts_nil (config : gmap string value) :
  (forall o, o ∈ OPTIONS -> is_Some (config !! ConfigOption.name o)) ->
  missing_opts set_iter config = [].
Proof.
  intros H. apply elem_of_nil_inv. intros k Hk.
  apply elem_of_missing in Hk as [(o & Ho & <-) Hnone].
  destruct (H o Ho) as [v Hv]. congruence.
Qed.

(** Claim C1.  On a document that already has every option name of the
    registry as a key, [ensure_config_keys] reads no line (so it asks no
    prompt and no yes/no question), writes nothing, and returns the document
    as it was: all it does is to print that the config is up to date. *)
Theorem ensure_config_keys_up_to_date fuel (config : gmap string value) w :
  (forall o, o ∈ OPTIONS -> is_Some (config !! ConfigOption.name o)) ->
  yaml_importable w = true ->
  exists w',
    ensure_config_keys set_iter fuel config w = (Ok config, w') /\
    stdin w' = stdin w /\ pos w' = pos w /\
    config_yml w' = config_yml w /\
    console w' = console w ++ [EPrint "Config is up-to-date"].
Proof.
  intros Hall Hy. eexists. split.
  - unfold ensure_config_keys, bind, import_yaml.
    rewrite Hy, (missing_opts_nil _ Hall). reflexivity.
  - done.
Qed.

(** Claim C2.  On a document that lacks exactly ["prefix"] and
    ["refresh-rate"], when the gate is answered with yes, the document that
    comes back has ["prefix"] at the default of the Prefix option, [";"],
    and ["refresh-rate"] at the default of the RefreshRate option, [60];
    every key that was there, of the registry or not, keeps its value. *)
Theorem ensure_config_keys_fills_prefix_and_refresh_rate
    fuel (config : gmap string value) w w2 :
  yaml_importable w = true ->
  config !! "prefix" = None ->
  config !! "refresh-rate" = None ->
  (forall o, o ∈ OPTIONS ->
     ConfigOption.name o <> "prefix" ->
     ConfigOption.name o <> "refresh-rate" ->
     is_Some (config !! ConfigOption.name o)) ->
  y_n fuel set_to_default_q
    (emit (EPrint ("There are missing options in your config file: "
                   +:+ join ", " (missing_opts set_iter config))) w)
    = (Ok true, w2) ->
  exists config' : gmap string value,
    ensure_config_keys set_iter fuel config w =
      (Ok config',
       emit (EPrint "Successfully updated config")
         (store config' (emit (EDump config') w2))) /\
    ConfigOption.default <$> get_option "prefix" = Some (VStr ";") /\
    ConfigOption.default <$> get_option "refresh-rate" = Some (VInt 60) /\
    config' !! "prefix" = Some (VStr ";") /\
    config' !! "refresh-rate" = Some (VInt 60) /\
    (forall k v, config !! k = Some v -> config' !! k = Some v) /\
    config' = <["prefix" := VStr ";"]> (<["refresh-rate" := VInt 60]> config).
Proof.
  intros Hy Hp Hr Hrest Hgate.
  destruct (ensure_config_keys_defaults fuel config w w2) as (c & Hrun & Hl);
    [done | | done |].
  { intros E. assert (Hin : "prefix" ∈ missing_opts set_iter config).
    { apply elem_of_missing. split; [| done].
      destruct (get_option "prefix") as [o |] eqn:Eo; [| discriminate].
      apply get_option_elem in Eo. eauto. }
    rewrite E in Hin. by apply elem_of_nil in Hin. }
  exists c. split; [done |].
  assert (Hcp : c !! "prefix" = Some (VStr ";")) by (by rewrite Hl, Hp).
  assert (Hcr : c !! "refresh-rate" = Some (VInt 60)) by (by rewrite Hl, Hr).
  assert (Hkeep : forall k v, config !! k = Some v -> c !! k = Some v).
  { intros k v Hk. by rewrite Hl, Hk. }
  repeat split; try done.
  apply map_eq. intros k.
  destruct (decide ("prefix" = k)) as [<- | Hne1];
    [by rewrite lookup_insert_eq |].
  rewrite lookup_insert_ne by done.
  destruct (decide ("refresh-rate" = k)) as [<- | Hne2];
    [by rewrite lookup_insert_eq |].
  rewrite lookup_insert_ne by done.
  rewrite Hl. destruct (config !! k) eqn:Ek; [done |].
  destruct (get_option k) as [o |] eqn:Eo; [| done].
  apply get_option_elem in Eo as [Ho Hn].
  destruct (Hrest o Ho) as [v Hv]; congruence.
Qed.

(** Claim C3.  When some option is missing and the gate is answered with
    yes, every missing option gets the default its registry entry declares;
    for bot-token, server-ip and maintenance-mode-detection that default is
    [None].  After the gate no line is read: what follows the gate's
    questions is the write of the document and the closing message. *)
Theorem ensure_config_keys_sets_declared_defaults
    fuel (config : gmap string value) w w2 :
  yaml_importable w = true ->
  (exists o, o ∈ OPTIONS /\ config !! ConfigOption.name o = None) ->
  y_n fuel set_to_default_q
    (emit (EPrint ("There are missing options in your config file: "
                   +:+ join ", " (missing_opts set_iter config))) w)
    = (Ok true, w2) ->
  exists (config' : gmap string value) w' n,
    ensure_config_keys set_iter fuel config w = (Ok config', w') /\
    (forall o, o ∈ OPTIONS ->
       config !! ConfigOption.name o = None ->
       config' !! ConfigOption.name o = Some (ConfigOption.default o)) /\
    (config !! "bot-token" = None -> config' !! "bot-token" = Some VNone) /\
    (config !! "server-ip" = None -> config' !! "server-ip" = Some VNone) /\
    (config !! "maintenance-mode-detection" = None ->
       config' !! "maintenance-mode-detection" = Some VNone) /\
    pos w' = pos w2 /\
    config_yml w' = Some config' /\
    console w' =
      console w
      ++ [EPrint ("There are missing options in your config file: "
                  +:+ join ", " (missing_opts set_iter config))]
      ++ replicate n (EPrompt (set_to_default_q +:+ " (y/n): "))
      ++ [EDump config'; EPrint "Successfully updated config"].
Proof.
  intros Hy (o & Ho & Hnone) Hgate.
  destruct (ensure_config_keys_defaults fuel config w w2) as (c & Hrun & Hl);
    [done | | done |].
  { intros E. assert (Hin : ConfigOption.name o ∈ missing_opts set_iter config)
      by (apply elem_of_missing; eauto).
    rewrite E in Hin. by apply elem_of_nil in Hin. }
  destruct (y_n_frame _ _ _ _ _ Hgate) as (n & Hc & _).
  eexists c, _, n. split; [exact Hrun |].
  repeat split.
  - intros o' Ho' Hn'. by rewrite Hl, Hn', get_option_name.
  - intros Hn'. by rewrite Hl, Hn'.
  - intros Hn'. by rewrite Hl, Hn'.
  - intros Hn'. by rewrite Hl, Hn'.
  - simpl. rewrite Hc. simpl. by rewrite <- !app_assoc.
Qed.

End ReconcileProperties.

Lemma ensure_config_keys_up_to_date_witness :
  exists w',
    ensure_config_keys (fun l => l) 1 full_config
      (start (lines []) true (Some full_config)) = (Ok full_config, w') /\
    stdin w' = lines [] /\ pos w' = 0 /\
    config_yml w' = Some full_config /\
    console w' = [EPrint "Config is up-to-date"].
Proof.
  apply (ensure_config_keys_up_to_date (fun l => l)).
  - intros l. reflexivity.
  - intros o H. each_option H; vm_compute; eauto.
  - reflexivity.
Defined.

Lemma ensure_config_keys_fills_prefix_and_refresh_rate_witness :
  let w := start (lines ["y"]) true (Some partial_config) in
  let w2 :=
    asked 1 (set_to_default_q +:+ " (y/n): ")
      (emit (EPrint ("There are missing options in your config file: "
                     +:+ join ", " (missing_opts (fun l => l) partial_config)))
         w) in
  exists config' : gmap string value,
    ensure_config_keys (fun l => l) 1 partial_config w =
      (Ok config',
       emit (EPrint "Successfully updated config")
         (store config' (emit (EDump config') w2))) /\
    ConfigOption.default <$> get_option "prefix" = Some (VStr ";") /\
    ConfigOption.default <$> get_option "refresh-rate" = Some (VInt 60) /\
    config' !! "prefix" = Some (VStr ";") /\
    config' !! "refresh-rate" = Some (VInt 60) /\
    (forall k v, partial_config !! k = Some v -> config' !! k = Some v) /\
    config' =
      <["prefix" := VStr ";"]> (<["refresh-rate" := VInt 60]> partial_config).
Proof.
  intros w w2.
  apply (ensure_config_keys_fills_prefix_and_refresh_rate (fun l => l)).
  - intros l. reflexivity.
  - reflexivity.
  - vm_compute. reflexivity.
  - vm_compute. reflexivity.
  - intros o H H1 H2. each_option H; simpl in H1, H2; try congruence;
      vm_compute; eauto.
  - vm_compute. reflexivity.
Defined.

Lemma ensure_config_keys_sets_declared_defaults_witness :
  let w := start (lines ["maybe"; "YES"]) true (Some foreign_config) in
  let notice :=
    "There are missing options in your config file: "
    +:+ join ", " (missing_opts (fun l => l) foreign_config) in
  exists (config' : gmap string value) w' n,
    ensure_config_keys (fun l => l) 2 foreign_config w = (Ok config', w') /\
    (forall o, o ∈ OPTIONS ->
       foreign_config !! ConfigOption.name o = None ->
       config' !! ConfigOption.name o = Some (ConfigOption.default o)) /\
    (foreign_config !! "bot-token" = None ->
       config' !! "bot-token" = Some VNone) /\
    (foreign_config !! "server-ip" = None ->
       config' !! "server-ip" = Some VNone) /\
    (foreign_config !! "maintenance-mode-detection" = None ->
       config' !! "maintenance-mode-detection" = Some VNone) /\
    pos w' = 2 /\
    config_yml w' = Some config' /\
    console w' =
      [] ++ [EPrint notice]
      ++ replicate n (EPrompt (set_to_default_q +:+ " (y/n): "))
      ++ [EDump config'; EPrint "Successfully updated config"].
Proof.
  intros w notice.
  apply (ensure_config_keys_sets_declared_defaults (fun l => l)
           (fun l => reflexivity l) 2 foreign_config w
           (asked 2 (set_to_default_q +:+ " (y/n): ") (emit (EPrint notice) w))).
  - reflexivity.
  - exists (ConfigOption.mk CPrefix "prefix" "Enter the prefix for the bot"
              (VStr ";") true).
    split; [| vm_compute; reflexivity].
    rewrite OPTIONS_unfold. apply elem_of_cons. right. apply list_elem_of_here.
  - vm_compute. reflexivity.
Defined.

(** ** The prompt of [get_info] *)

Lemma bind_ret {A} (m : M A) w : bind m ret w = m w.
Proof. unfold bind, ret. by destruct (m w) as [[a | e |] w']. Qed.

Lemma get_info_loop_S fuel question dt default optional w :
  get_info_loop (S fuel) question dt default optional w =
  match input (question +:+ dt +:+ ": ") w with
  | (Ok result, w') =>
    if String.eqb result EmptyString && optional then (Ok default, w')
    else if negb optional && String.eqb result EmptyString then
      get_info_loop fuel question dt default optional w'
    else (Ok (VStr result), w')
  | (Raise e, w') => (Raise e, w')
  | (Diverge, w') => (Diverge, w')
  end.
Proof.
  change (get_info_loop (S fuel) question dt default optional w) with
    (bind (input (question +:+ dt +:+ ": "))
       (fun result =>
          if negb (truthy (VStr result)) && optional then ret default
          else if negb optional && negb (truthy (VStr result)) then
            get_info_loop fuel question dt default optional
          else ret (VStr result)) w).
  unfold bind. destruct (input _ w) as [[result | e |] w']; try reflexivity.
  simpl. rewrite negb_involutive.
  by destruct (String.eqb result EmptyString), optional.
Qed.

(** An optional question is asked once: an empty line gives the default,
    any other line is the answer. *)
Lemma get_info_optional fuel question default line w :
  stdin w (pos w) = Some line ->
  get_info (S fuel) question default true w =
    (Ok (if String.eqb line EmptyString then default else VStr line),
     asked 1 (question +:+ default_text default true +:+ ": ") w).
Proof.
  intros Hl. unfold get_info.
  rewrite get_info_loop_S, (input_line _ _ _ Hl), asked_1.
  by destruct (String.eqb line EmptyString).
Qed.

Lemma get_info_eof fuel question default optional w :
  stdin w (pos w) = None ->
  get_info (S fuel) question default optional w =
    (Raise EOFError,
     emit (EPrompt (question +:+ default_text default optional +:+ ": ")) w).
Proof.
  intros Hl. unfold get_info. by rewrite get_info_loop_S, (input_eof _ _ Hl).
Qed.

(** A required question skips empty lines and returns the first line that
    is not empty. *)
Lemma get_info_required n : forall fuel question default line w,
  n < fuel ->
  (forall i, i < n -> stdin w (pos w + i) = Some EmptyString) ->
  stdin w (pos w + n) = Some line ->
  line <> EmptyString ->
  get_info fuel question default false w =
    (Ok (VStr line), asked (S n) (question +:+ ": ") w).
Proof.
  unfold get_info, default_text.
  induction n as [| n IH]; intros fuel question default line w Hf He Hl Hne;
    (destruct fuel as [| fuel]; [lia |]); rewrite get_info_loop_S.
  - rewrite Nat.add_0_r in Hl. rewrite (input_line _ _ _ Hl), asked_1.
    apply String.eqb_neq in Hne. by rewrite Hne.
  - assert (H0 : stdin w (pos w) = Some EmptyString).
    { rewrite <- (Nat.add_0_r (pos w)). apply He. lia. }
    rewrite (input_line _ _ _ H0). simpl.
    rewrite (IH fuel question default line); [by rewrite asked_S | lia | | | done].
    + intros i Hi. simpl. rewrite <- Nat.add_succ_r. apply He. lia.
    + simpl. by rewrite <- Nat.add_succ_r.
Qed.

Lemma get_info_required_nonempty fuel question default w v w' :
  get_info fuel question default false w = (Ok v, w') ->
  exists line, v = VStr line /\ line <> EmptyString.
Proof.
  unfold get_info. revert w.
  induction fuel as [| fuel IH]; intros w H; [discriminate |].
  rewrite get_info_loop_S in H.
  destruct (input _ w) as [[result | e |] w1]; try discriminate.
  simpl in H. rewrite andb_false_r in H.
  destruct (String.eqb result EmptyString) eqn:E; [by eapply IH |].
  inversion H; subst. exists result. split; [done |]. by apply String.eqb_neq.
Qed.

(** As long as the operator sends empty lines, a required question is asked
    again: whatever the budget, the loop uses it up. *)
Lemma get_info_required_blocked fuel question default w :
  (forall i, stdin w (pos w + i) = Some EmptyString) ->
  fst (get_info fuel question default false w) = Diverge.
Proof.
  unfold get_info. revert w.
  induction fuel as [| fuel IH]; intros w H; [done |].
  rewrite get_info_loop_S.
  assert (H0 : stdin w (pos w) = Some EmptyString).
  { rewrite <- (Nat.add_0_r (pos w)). apply H. }
  rewrite (input_line _ _ _ H0). simpl. apply IH.
  intros i. simpl. rewrite <- Nat.add_succ_r. apply H.
Qed.

(** Everything [get_info] puts on the console is its one prompt line. *)
Lemma get_info_frame fuel question default optional w :
  exists n,
    console (snd (get_info fuel question default optional w)) =
      console w
      ++ replicate n
           (EPrompt (question +:+ default_text default optional +:+ ": ")) /\
    (fuel <> 0 -> n <> 0).
Proof.
  unfold get_info. generalize (default_text default optional) as dt.
  intros dt. revert w.
  induction fuel as [| fuel IH]; intros w.
  - exists 0. simpl. by rewrite app_nil_r.
  - rewrite get_info_loop_S. unfold input.
    destruct (stdin w (pos w)) as [line |].
    + destruct (String.eqb line EmptyString && optional);
        [| destruct (negb optional && String.eqb line EmptyString)].
      1,3: exists 1; split; [done | lia].
      destruct (IH (advance (emit (EPrompt (question +:+ dt +:+ ": ")) w)))
        as (n & Hn & _).
      exists (S n). split; [| lia]. rewrite Hn. simpl. by rewrite <- app_assoc.
    + exists 1. split; [done | lia].
Qed.

(** ** The prompts of the options *)

Lemma prompt_inherited fuel self w :
  ConfigOption.kind self = CConfigOption \/
  ConfigOption.kind self = CPrefix \/
  ConfigOption.kind self = CServerIP ->
  prompt fuel self w =
  get_info fuel (ConfigOption.help self) (ConfigOption.default self)
    (ConfigOption.optional self) w.
Proof.
  unfold prompt, ConfigOption.prompt.
  intros [-> | [-> | ->]]; apply bind_ret.
Qed.

Lemma prompt_BotToken fuel self w :
  ConfigOption.kind self = CBotToken ->
  prompt fuel self w =
  get_info fuel
    (ConfigOption.help self +:+
     ("." +:+ nl +:+ "You can get the bot's token from the bot application. "
      +:+ "To learn how to create a bot application, visit https://discordpy.readthedocs.io/en/latest/discord.html"))
    (ConfigOption.default self) (ConfigOption.optional self) w.
Proof. unfold prompt, BotToken.prompt. intros ->. apply bind_ret. Qed.

(** Claim C5.  An option of the registry that is not optional (bot-token
    and server-ip, which have no default) never returns an empty value;
    after any number of empty lines it returns the first line that is not
    empty, having asked once per line; and while the operator sends nothing
    but empty lines it does not return, whatever the budget of the loop. *)
Theorem required_option_prompt o :
  o ∈ OPTIONS ->
  ConfigOption.optional o = false ->
  ConfigOption.default o = VNone /\
  exists text,
    (forall fuel w v w',
       prompt fuel o w = (Ok v, w') ->
       exists line, v = VStr line /\ line <> EmptyString) /\
    (forall n fuel line w,
       n < fuel ->
       (forall i, i < n -> stdin w (pos w + i) = Some EmptyString) ->
       stdin w (pos w + n) = Some line ->
       line <> EmptyString ->
       prompt fuel o w = (Ok (VStr line), asked (S n) text w)) /\
    (forall fuel w,
       (forall i, stdin w (pos w + i) = Some EmptyString) ->
       fst (prompt fuel o w) = Diverge).
Proof.
  intros H Hopt. each_option H; try discriminate; (split; [reflexivity |]);
    eexists; repeat split.
  - intros fuel w v w'. rewrite prompt_BotToken by reflexivity.
    apply get_info_required_nonempty.
  - intros n fuel line w. rewrite prompt_BotToken by reflexivity.
    apply get_info_required.
  - intros fuel w. rewrite prompt_BotToken by reflexivity.
    apply get_info_required_blocked.
  - intros fuel w v w'. rewrite prompt_inherited by auto.
    apply get_info_required_nonempty.
  - intros n fuel line w. rewrite prompt_inherited by auto.
    apply get_info_required.
  - intros fuel w. rewrite prompt_inherited by auto.
    apply get_info_required_blocked.
Qed.

Lemma required_option_prompt_witness :
  let o :=
    ConfigOption.mk CBotToken "bot-token" "Enter the token for the bot"
      VNone false in
  ConfigOption.default o = VNone /\
  exists text,
    (forall fuel w v w',
       prompt fuel o w = (Ok v, w') ->
       exists line, v = VStr line /\ line <> EmptyString) /\
    (forall n fuel line w,
       n < fuel ->
       (forall i, i < n -> stdin w (pos w + i) = Some EmptyString) ->
       stdin w (pos w + n) = Some line ->
       line <> EmptyString ->
       prompt fuel o w = (Ok (VStr line), asked (S n) text w)) /\
    (forall fuel w,
       (forall i, stdin w (pos w + i) = Some EmptyString) ->
       fst (prompt fuel o w) = Diverge).
Proof.
  intros o. apply (required_option_prompt o).
  - rewrite OPTIONS_unfold. apply list_elem_of_here.
  - reflexivity.
Defined.

Lemma prompt_MaintenceModeDetection fuel self w :
  ConfigOption.kind self = CMaintenceModeDetection ->
  prompt fuel self w =
  match y_n fuel MaintenceModeDetection.gate w with
  | (Ok true, w2) => get_info fuel (ConfigOption.help self) VNone false w2
  | (Ok false, w2) => (Ok VNone, w2)
  | (Raise e, w2) => (Raise e, w2)
  | (Diverge, w2) => (Diverge, w2)
  end.
Proof.
  unfold prompt, MaintenceModeDetection.prompt, bind. intros ->.
  destruct (y_n fuel _ w) as [[[|] | e |] w2]; try reflexivity.
  simpl. apply (bind_ret (get_info fuel (ConfigOption.help self) VNone false)).
Qed.

(** Claim C6.  For maintenance-mode-detection: when the gate is answered
    with no, [prompt] returns [None] in the very world the gate left, so
    nothing more is asked; when it is answered with yes, the value returned
    is never empty, empty lines are asked again, and the line
    ["maintenance"] is returned as such. *)
Theorem maintenance_mode_detection_prompt o :
  get_option "maintenance-mode-detection" = Some o ->
  (forall fuel w w2,
     y_n fuel MaintenceModeDetection.gate w = (Ok false, w2) ->
     prompt fuel o w = (Ok VNone, w2)) /\
  (forall fuel w w2 v w',
     y_n fuel MaintenceModeDetection.gate w = (Ok true, w2) ->
     prompt fuel o w = (Ok v, w') ->
     exists line, v = VStr line /\ line <> EmptyString) /\
  (forall n fuel w w2,
     y_n fuel MaintenceModeDetection.gate w = (Ok true, w2) ->
     n < fuel ->
     (forall i, i < n -> stdin w2 (pos w2 + i) = Some EmptyString) ->
     stdin w2 (pos w2 + n) = Some "maintenance" ->
     prompt fuel o w =
       (Ok (VStr "maintenance"),
        asked (S n) "Enter the text to look for in the MOTD: " w2)) /\
  (forall fuel w w2,
     y_n fuel MaintenceModeDetection.gate w = (Ok true, w2) ->
     (forall i, stdin w2 (pos w2 + i) = Some EmptyString) ->
     fst (prompt fuel o w) = Diverge).
Proof.
  intros H. apply get_option_elem in H as [Hin Hname].
  each_option Hin; try discriminate. repeat split.
  - intros fuel w w2 Hg.
    by rewrite prompt_MaintenceModeDetection, Hg.
  - intros fuel w w2 v w' Hg.
    rewrite prompt_MaintenceModeDetection, Hg by reflexivity.
    apply get_info_required_nonempty.
  - intros n fuel w w2 Hg Hf He Hl.
    rewrite prompt_MaintenceModeDetection, Hg by reflexivity.
    by apply get_info_required.
  - intros fuel w w2 Hg He.
    rewrite prompt_MaintenceModeDetection, Hg by reflexivity.
    by apply get_info_required_blocked.
Qed.

Lemma maintenance_mode_detection_prompt_witness :
  let o :=
    ConfigOption.mk CMaintenceModeDetection "maintenance-mode-detection"
      "Enter the text to look for in the MOTD" VNone true in
  let declined := start (lines ["No"]) true None in
  let accepted := start (lines ["y"; EmptyString; "maintenance"]) true None in
  let q := MaintenceModeDetection.gate +:+ " (y/n): " in
  prompt 1 o declined = (Ok VNone, asked 1 q declined) /\
  prompt 2 o accepted =
    (Ok (VStr "maintenance"),
     asked 2 "Enter the text to look for in the MOTD: " (asked 1 q accepted)).
Proof.
  intros o declined accepted q.
  destruct (maintenance_mode_detection_prompt o eq_refl) as (Hno & _ & Hyes & _).
  split.
  - apply (Hno 1 declined). vm_compute. reflexivity.
  - apply (Hyes 1 2 accepted (asked 1 q accepted)).
    + vm_compute. reflexivity.
    + lia.
    + intros i Hi. assert (i = 0) as -> by lia. reflexivity.
    + reflexivity.
Defined.

(** ** The enumerated choice *)

Lemma ServerType_prompt_S fuel self w :
  ServerType.prompt (S fuel) self w =
  match get_info (S fuel) (ConfigOption.help self) (ConfigOption.default self)
          (ConfigOption.optional self) w with
  | (Ok (VStr s), w1) =>
    if str_in (lower s) ["java"; "bedrock"] then (Ok (VStr (lower s)), w1)
    else
      ServerType.prompt fuel self
        (emit (EPrint "Please enter either Java or Bedrock.") w1)
  | (Ok _, w1) => (Raise AttributeError, w1)
  | (Raise e, w1) => (Raise e, w1)
  | (Diverge, w1) => (Diverge, w1)
  end.
Proof.
  change (ServerType.prompt (S fuel) self w) with
    (bind (get_info (S fuel) (ConfigOption.help self)
             (ConfigOption.default self) (ConfigOption.optional self))
       (fun result =>
          bind (str_lower result)
            (fun result =>
               if str_in result ["java"; "bedrock"] then ret (VStr result)
               else
                 bind (print "Please enter either Java or Bedrock.")
                   (fun _ => ServerType.prompt fuel self))) w).
  unfold bind. destruct (get_info _ _ _ _ w) as [[[| s | z] | e |] w1];
    try reflexivity.
  unfold str_lower, ret.
  by destruct (str_in (lower s) ["java"; "bedrock"]).
Qed.

Lemma str_in_java_bedrock s :
  str_in s ["java"; "bedrock"] = true -> s = "java" \/ s = "bedrock".
Proof.
  unfold str_in. simpl. rewrite orb_false_r.
  intros [H | H]%orb_true_iff; apply String.eqb_eq in H; auto.
Qed.

Lemma ServerType_prompt_returns fuel self w v w' :
  ServerType.prompt fuel self w = (Ok v, w') ->
  v = VStr "java" \/ v = VStr "bedrock".
Proof.
  revert w. induction fuel as [| fuel IH]; intros w H; [discriminate |].
  rewrite ServerType_prompt_S in H.
  destruct (get_info _ _ _ _ w) as [[[| s | z] | e |] w1]; try discriminate.
  destruct (str_in (lower s) ["java"; "bedrock"]) eqn:E; [| by eapply IH].
  inversion H; subst. apply str_in_java_bedrock in E as [-> | ->]; auto.
Qed.

(** Claim C10.  Whatever the input and whatever the default of the object,
    a value that [ServerType.prompt] returns is ["java"] or ["bedrock"], in
    lower case.  An empty first line takes the default, which goes through
    [lower] and the membership test like a typed answer: for the option of
    the registry the result is ["java"]. *)
Theorem server_type_prompt :
  (forall fuel self w v w',
     ServerType.prompt fuel self w = (Ok v, w') ->
     exists s,
       v = VStr s /\ lower s = s /\ (s = "java" \/ s = "bedrock")) /\
  (forall fuel self d w,
     ConfigOption.optional self = true ->
     ConfigOption.default self = VStr d ->
     stdin w (pos w) = Some EmptyString ->
     str_in (lower d) ["java"; "bedrock"] = true ->
     ServerType.prompt (S fuel) self w =
       (Ok (VStr (lower d)),
        asked 1 (ConfigOption.help self +:+ default_text (VStr d) true +:+ ": ")
          w)) /\
  (forall o,
     get_option "server-type" = Some o ->
     (forall fuel w, prompt fuel o w = ServerType.prompt fuel o w) /\
     (forall fuel w,
        stdin w (pos w) = Some EmptyString ->
        prompt (S fuel) o w =
          (Ok (VStr "java"),
           asked 1
             "Enter the type of Minecraft server (Java or Bedrock) [java]: "
             w))).
Proof.
  split; [| split].
  - intros fuel self w v w' H.
    apply ServerType_prompt_returns in H as [-> | ->]; eexists; eauto.
  - intros fuel self d w Hopt Hd Hl Hin.
    rewrite ServerType_prompt_S, Hopt, Hd, (get_info_optional _ _ _ _ _ Hl).
    simpl String.eqb. cbv iota. by rewrite Hin.
  - intros o H. apply get_option_elem in H as [Hin Hname].
    each_option Hin; try discriminate.
    match goal with
    | |- (forall fuel w, prompt fuel ?o w = _) /\ _ =>
      assert (Hsame : forall fuel w, prompt fuel o w = ServerType.prompt fuel o w)
        by reflexivity
    end.
    split; [exact Hsame |].
    intros fuel w Hl. rewrite Hsame, ServerType_prompt_S.
    simpl ConfigOption.optional.
    by rewrite (get_info_optional _ _ _ _ _ Hl).
Qed.

Lemma server_type_prompt_witness :
  let o :=
    ConfigOption.mk CServerType "server-type"
      "Enter the type of Minecraft server (Java or Bedrock)" (VStr "java") true
  in
  let w := start (lines [EmptyString]) true None in
  prompt 1 o w =
    (Ok (VStr "java"),
     asked 1 "Enter the type of Minecraft server (Java or Bedrock) [java]: " w)
  /\ exists s, VStr "java" = VStr s /\ lower s = s /\ (s = "java" \/ s = "bedrock").
Proof.
  intros o w.
  destruct server_type_prompt as (Hret & _ & Hreg).
  destruct (Hreg o eq_refl) as [Hsame Hempty].
  assert (Hrun := Hempty 0 w eq_refl).
  split; [exact Hrun |].
  rewrite Hsame in Hrun. exact (Hret _ _ _ _ _ Hrun).
Defined.

(** ** The bounded integer *)

Lemma RefreshRate_prompt_S fuel self w :
  RefreshRate.prompt (S fuel) self w =
  match get_info (S fuel) (ConfigOption.help self) (ConfigOption.default self)
          (ConfigOption.optional self) w with
  | (Ok result, w1) =>
    match py_int result with
    | Ok z =>
      if (30 <=? z)%Z then (Ok (VInt z), w1)
      else
        RefreshRate.prompt fuel self
          (emit (EPrint "Seconds must be 30 or higher. This is due to Discord's ratelimit on changing statuses.") w1)
    | Raise (ValueError _) => RefreshRate.prompt fuel self w1
    | Raise e => (Raise e, w1)
    | Diverge => (Diverge, w1)
    end
  | (Raise e, w1) => (Raise e, w1)
  | (Diverge, w1) => (Diverge, w1)
  end.
Proof.
  change (RefreshRate.prompt (S fuel) self w) with
    (bind (get_info (S fuel) (ConfigOption.help self)
             (ConfigOption.default self) (ConfigOption.optional self))
       (fun result =>
          match py_int result with
          | Raise (ValueError _) => RefreshRate.prompt fuel self
          | Raise e => raise e
          | Diverge => diverge
          | Ok result =>
            if (30 <=? result)%Z then ret (VInt result)
            else
              bind (print "Seconds must be 30 or higher. This is due to Discord's ratelimit on changing statuses.")
                (fun _ => RefreshRate.prompt fuel self)
          end) w).
  unfold bind. destruct (get_info _ _ _ _ w) as [[result | e |] w1];
    try reflexivity.
  destruct (py_int result) as [z | [] |]; try reflexivity.
  by destruct (30 <=? z)%Z.
Qed.

(** A value comes back only from a round of the loop in which what
    [get_info] handed over (the line read, or the default in place of an
    empty line) converted to an integer that is at least 30. *)
Lemma RefreshRate_prompt_returns fuel self w v w' :
  ConfigOption.optional self = true ->
  RefreshRate.prompt fuel self w = (Ok v, w') ->
  exists z k line,
    v = VInt z /\ (30 <= z)%Z /\
    pos w <= k /\ pos w' = S k /\ stdin w' = stdin w /\
    stdin w k = Some line /\
    py_int (if String.eqb line EmptyString
            then ConfigOption.default self else VStr line) = Ok z.
Proof.
  intros Hopt. revert w.
  induction fuel as [| fuel IH]; intros w H; [discriminate |].
  rewrite RefreshRate_prompt_S, Hopt in H.
  destruct (stdin w (pos w)) as [line |] eqn:Hl.
  - rewrite (get_info_optional _ _ _ _ _ Hl) in H.
    destruct (py_int _) as [z | e |] eqn:Hint.
    + destruct (30 <=? z)%Z eqn:Hz.
      * inversion H; subst. exists z, (pos w), line.
        apply Z.leb_le in Hz. simpl. repeat split; auto; lia.
      * apply IH in H as (z' & k & line' & -> & ? & Hk & ? & Hs & ? & ?).
        exists z', k, line'. simpl in *. repeat split; auto; lia.
    + destruct e; try discriminate.
      apply IH in H as (z' & k & line' & -> & ? & Hk & ? & Hs & ? & ?).
      exists z', k, line'. simpl in *. repeat split; auto; lia.
    + discriminate.
  - rewrite (get_info_eof _ _ _ _ _ Hl) in H. discriminate.
Qed.

(** Claim C4, as amended.  For refresh-rate: the line ["10"] is answered
    with the corrective message and a new prompt, the line ["abc"] with a
    new prompt, the lines ["30"] and ["45"] are accepted as the integers 30
    and 45.  A value is returned only from a round in which the line just
    read converts to an integer of at least 30, or is empty, in which case
    the default 60 is returned in its place. *)
Theorem refresh_rate_prompt o :
  get_option "refresh-rate" = Some o ->
  (forall fuel w,
     stdin w (pos w) = Some "10" ->
     prompt (S fuel) o w =
       prompt fuel o
         (emit (EPrint "Seconds must be 30 or higher. This is due to Discord's ratelimit on changing statuses.")
            (asked 1 "Enter the amount of seconds to wait in between status refreshes [60]: " w))) /\
  (forall fuel w,
     stdin w (pos w) = Some "abc" ->
     prompt (S fuel) o w =
       prompt fuel o
         (asked 1 "Enter the amount of seconds to wait in between status refreshes [60]: " w)) /\
  (forall fuel w,
     stdin w (pos w) = Some "30" ->
     prompt (S fuel) o w =
       (Ok (VInt 30),
        asked 1 "Enter the amount of seconds to wait in between status refreshes [60]: " w)) /\
  (forall fuel w,
     stdin w (pos w) = Some "45" ->
     prompt (S fuel) o w =
       (Ok (VInt 45),
        asked 1 "Enter the amount of seconds to wait in between status refreshes [60]: " w)) /\
  (forall fuel w v w',
     prompt fuel o w = (Ok v, w') ->
     exists z k line,
       v = VInt z /\ (30 <= z)%Z /\
       pos w <= k /\ pos w' = S k /\ stdin w k = Some line /\
       (line = EmptyString /\ z = 60%Z \/
        line <> EmptyString /\ int_of_str line = Some z)).
Proof.
  intros H. apply get_option_elem in H as [Hin Hname].
  each_option Hin; try discriminate.
  match goal with
  | |- (forall fuel w, _ -> prompt (S fuel) ?o w = _) /\ _ =>
    assert (Hsame : forall fuel w, prompt fuel o w = RefreshRate.prompt fuel o w)
      by reflexivity
  end.
  repeat split.
  1-4: intros fuel w Hl; rewrite !Hsame, RefreshRate_prompt_S;
       simpl ConfigOption.optional;
       by rewrite (get_info_optional _ _ _ _ _ Hl).
  intros fuel w v w' Hrun. rewrite Hsame in Hrun.
  apply RefreshRate_prompt_returns in Hrun
    as (z & k & line & -> & Hz & Hk & Hp & _ & Hl & Hint); [| reflexivity].
  exists z, k, line. repeat split; auto.
  destruct (String.eqb line EmptyString) eqn:E.
  - left. apply String.eqb_eq in E. simpl in Hint. split; congruence.
  - right. apply String.eqb_neq in E. split; [done |].
    simpl in Hint. destruct (int_of_str line); congruence.
Qed.

Lemma refresh_rate_prompt_witness :
  let o :=
    ConfigOption.mk CRefreshRate "refresh-rate"
      "Enter the amount of seconds to wait in between status refreshes"
      (VInt 60) true in
  let text :=
    "Enter the amount of seconds to wait in between status refreshes [60]: " in
  let w := start (lines ["10"; "abc"; "45"]) true None in
  prompt 3 o w =
    prompt 2 o
      (emit (EPrint "Seconds must be 30 or higher. This is due to Discord's ratelimit on changing statuses.")
         (asked 1 text w)) /\
  prompt 3 o w = (Ok (VInt 45), snd (prompt 3 o w)) /\
  exists z k line,
    VInt 45 = VInt z /\ (30 <= z)%Z /\
    pos w <= k /\ pos (snd (prompt 3 o w)) = S k /\ stdin w k = Some line /\
    (line = EmptyString /\ z = 60%Z \/
     line <> EmptyString /\ int_of_str line = Some z).
Proof.
  intros o text w.
  destruct (refresh_rate_prompt o eq_refl) as (Hlow & _ & _ & _ & Hret).
  assert (Hrun : prompt 3 o w = (Ok (VInt 45), snd (prompt 3 o w)))
    by (vm_compute; reflexivity).
  split; [apply (Hlow 2 w); reflexivity |].
  split; [exact Hrun |].
  exact (Hret 3 w _ _ Hrun).
Defined.

(** The claim as the spec words it fails on an empty line: [prompt] returns
    60, although the line that was entered converts to no integer. *)
Lemma refresh_rate_prompt_empty_line :
  prompt 1
    (ConfigOption.mk CRefreshRate "refresh-rate"
       "Enter the amount of seconds to wait in between status refreshes"
       (VInt 60) true)
    (start (lines [EmptyString]) true None)
  = (Ok (VInt 60),
     asked 1
       "Enter the amount of seconds to wait in between status refreshes [60]: "
       (start (lines [EmptyString]) true None))
  /\ get_option "refresh-rate"
     = Some (ConfigOption.mk CRefreshRate "refresh-rate"
               "Enter the amount of seconds to wait in between status refreshes"
               (VInt 60) true)
  /\ lines [EmptyString] 0 = Some EmptyString
  /\ int_of_str EmptyString = None.
Proof. repeat split. Qed.

(** ** The prompt line *)

Lemma append_assoc (a b c : string) : (a +:+ b) +:+ c = a +:+ b +:+ c.
Proof.
  induction a as [| x a IH]; [reflexivity |].
  change (String x ((a +:+ b) +:+ c) = String x (a +:+ b +:+ c)).
  by rewrite IH.
Qed.

(** Claim C7, as amended.  Every prompt [get_info] shows is the one line
    [question], [default_text], [": "], and it shows it at least once.  The
    line depends on [optional] first: without [optional] it is
    ["<question>: "]; with [optional] it is ["<question> [<default>]: "] for
    a default that is set, and ["<question> []: "], with empty brackets,
    when there is no default. *)
Theorem get_info_prompt_line fuel question default optional w :
  (exists n,
     console (snd (get_info fuel question default optional w)) =
       console w
       ++ replicate n
            (EPrompt (question +:+ default_text default optional +:+ ": ")) /\
     (fuel <> 0 -> n <> 0)) /\
  (optional = false ->
     question +:+ default_text default optional +:+ ": " = question +:+ ": ") /\
  (optional = true -> truthy default = true ->
     question +:+ default_text default optional +:+ ": "
     = question +:+ " [" +:+ py_str default +:+ "]: ") /\
  (optional = true -> default = VNone ->
     question +:+ default_text default optional +:+ ": "
     = question +:+ " []: ").
Proof.
  split; [apply get_info_frame |]. unfold default_text. repeat split.
  - by intros ->.
  - intros -> ->.
    change (question +:+ (" [" +:+ py_str default +:+ "]") +:+ ": "
            = question +:+ " [" +:+ py_str default +:+ "]: ").
    by rewrite !append_assoc.
  - by intros -> ->.
Qed.

Lemma get_info_prompt_line_witness :
  (exists n,
     console (snd (get_info 1 "Enter the prefix for the bot" (VStr ";") true
                     (start (lines ["!"]) true None))) =
       [] ++ replicate n
               (EPrompt ("Enter the prefix for the bot"
                         +:+ default_text (VStr ";") true +:+ ": ")) /\
     (1 <> 0 -> n <> 0)) /\
  "Enter the prefix for the bot" +:+ default_text (VStr ";") true +:+ ": "
  = "Enter the prefix for the bot [;]: ".
Proof.
  destruct (get_info_prompt_line 1 "Enter the prefix for the bot" (VStr ";")
              true (start (lines ["!"]) true None)) as (Hn & _ & Hset & _).
  split; [exact Hn |]. exact (Hset eq_refl eq_refl).
Defined.

(** The claim as the spec words it fails for a question asked with the
    keyword defaults of [get_info] (no default, optional): the line shown
    has a bracketed segment. *)
Lemma get_info_no_default_brackets :
  console (snd (get_info 1 "Enter a value" VNone true
                  (start (lines ["x"]) true None)))
  = [EPrompt "Enter a value []: "]
  /\ "Enter a value []: " <> "Enter a value: ".
Proof. split; [reflexivity | discriminate]. Qed.

(** In the registry the two go together: an option has a default exactly
    when it is optional, except for maintenance-mode-detection, whose own
    [prompt] asks with [optional=False]. So the lines the options show are
    ["<help> [<default>]: "] with a default and ["<help>: "] without. *)
Lemma OPTIONS_default_iff_optional o :
  o ∈ OPTIONS ->
  ConfigOption.kind o <> CMaintenceModeDetection ->
  (ConfigOption.default o <> VNone <-> ConfigOption.optional o = true) /\
  (ConfigOption.default o <> VNone ->
   truthy (ConfigOption.default o) = true).
Proof.
  intros H Hk. each_option H; simpl in *; try congruence;
    repeat split; congruence.
Qed.

(** ** The constructor *)

Lemma ConfigOption_init_raises k name help default :
  truthy default = true ->
  ConfigOption.init k name help default false =
    Raise (ValueError "this option is optional yet a default has been set").
Proof. unfold ConfigOption.init. by intros ->. Qed.

(** What the test of line 65 does guarantee: a required option has a
    default that is not truthy. *)
Lemma ConfigOption_init_falsy k name help default optional o :
  ConfigOption.init k name help default optional = Ok o ->
  ConfigOption.optional o = false ->
  truthy (ConfigOption.default o) = false.
Proof.
  unfold ConfigOption.init.
  destruct (truthy default) eqn:E, optional; simpl; intros H;
    inversion H; subst; simpl; congruence.
Qed.

Lemma OPTIONS_invariant o :
  o ∈ OPTIONS ->
  ConfigOption.optional o = false -> ConfigOption.default o = VNone.
Proof. intros H. each_option H; simpl; congruence. Qed.

(** Claim C8, at the input on which the code departs from it: a required
    option with the default [0] is constructed without an error, and keeps
    a default that is not [None]. *)
Theorem ConfigOption_init_accepts_zero_default :
  ConfigOption.init CConfigOption "retries" "Enter the number of retries"
    (VInt 0) false
  = Ok (ConfigOption.mk CConfigOption "retries" "Enter the number of retries"
          (VInt 0) false)
  /\ ConfigOption.init CConfigOption "motd" "Enter the text" (VStr EmptyString)
       false
     = Ok (ConfigOption.mk CConfigOption "motd" "Enter the text"
             (VStr EmptyString) false).
Proof. split; reflexivity. Qed.

(** ** The controller *)

Lemma import_loop_present fuel w :
  yaml_importable w = true -> import_loop (S fuel) 0 w = (Ok tt, w).
Proof.
  intros Hy. simpl. unfold bind, try_except, import_yaml. by rewrite Hy.
Qed.

(** What the script does when [yaml] cannot be imported: it prints its
    notice and then stops at the call of [update_deps], a name it does not
    define.  The second import and the [OSError] of line 273 are never
    reached. *)
Lemma run_setup_yaml_missing set_iter fuel w :
  yaml_importable w = false ->
  run_setup set_iter (S fuel) w =
    (Raise (NameError "update_deps"),
     emit (EPrint "Oh no! PyYAML is not installed. Trying to fix...") w).
Proof.
  intros Hy. unfold run_setup. simpl.
  unfold bind, try_except, import_yaml. by rewrite Hy.
Qed.

(** Claim C9, as amended.  When [yaml] imports at the first try,
    [run_setup] is the configuration steps and nothing else: no notice, no
    call of [update_deps], no second import.  The abort for the missing
    dependency is one abnormal end among others: with no config file and
    the input at its end, the first prompt ends the run with [EOFError].
    When the import fails, the first thing the controller does is to
    announce the repair. *)
Theorem run_setup_import set_iter fuel w :
  (yaml_importable w = true ->
   run_setup set_iter (S fuel) w = configure set_iter (S fuel) w) /\
  (yaml_importable w = true ->
   config_yml w = None ->
   stdin w (pos w) = None ->
   fst (run_setup set_iter (S fuel) w) = Raise EOFError) /\
  (yaml_importable w = false ->
   exists rest,
     console (snd (run_setup set_iter (S fuel) w)) =
       console w
       ++ EPrint "Oh no! PyYAML is not installed. Trying to fix..." :: rest).
Proof.
  assert (Hrun : yaml_importable w = true ->
                 run_setup set_iter (S fuel) w = configure set_iter (S fuel) w).
  { intros Hy. unfold run_setup, bind. by rewrite import_loop_present. }
  split; [exact Hrun |]. split.
  - intros Hy Hfile Heof. rewrite (Hrun Hy).
    unfold configure, bind, isfile_config. rewrite Hfile.
    rewrite bool_decide_eq_false_2 by (intros [d Hd]; discriminate).
    unfold print at 1. rewrite OPTIONS_unfold.
    unfold ask_all, bind. rewrite prompt_BotToken by reflexivity.
    by rewrite get_info_eof.
  - intros Hy. exists []. by rewrite run_setup_yaml_missing.
Qed.

Lemma run_setup_import_witness :
  run_setup (fun l => l) 1 (start (lines []) true None)
  = configure (fun l => l) 1 (start (lines []) true None) /\
  fst (run_setup (fun l => l) 1 (start (lines []) true None)) = Raise EOFError
  /\
  exists rest,
    console (snd (run_setup (fun l => l) 1 (start (lines ["y"]) false None))) =
      [] ++ EPrint "Oh no! PyYAML is not installed. Trying to fix..." :: rest.
Proof.
  destruct (run_setup_import (fun l => l) 0 (start (lines []) true None))
    as (Hsame & Heof & _).
  destruct (run_setup_import (fun l => l) 0 (start (lines ["y"]) false None))
    as (_ & _ & Hnotice).
  split; [exact (Hsame eq_refl) |].
  split; [exact (Heof eq_refl eq_refl eq_refl) |].
  exact (Hnotice eq_refl).
Defined.

(** The claim as the spec words it fails: [yaml] is imported at the first
    try, and the run still ends abnormally, with an exception that is not
    the abort for the missing dependency. *)
Lemma run_setup_end_of_input :
  yaml_importable (start (lines []) true None) = true /\
  run_setup (fun l => l) 1 (start (lines []) true None)
  = (Raise EOFError,
     emit (EPrompt
             ("Enter the token for the bot." +:+ nl
              +:+ "You can get the bot's token from the bot application. "
              +:+ "To learn how to create a bot application, visit https://discordpy.readthedocs.io/en/latest/discord.html"
              +:+ ": "))
       (emit (EPrint "Config file not found, initiating setup...")
          (start (lines []) true None))).
Proof. split; reflexivity. Qed.

(** ** Two sessions *)

(** A first run: the operator gives a token, takes the default prefix,
    types the server type in capitals, gives an address, is sent back once
    for a refresh rate that is too low, and declines the last feature. *)
Example first_run :
  let w :=
    main (fun l => l) 2
      (start (lines ["token"; EmptyString; "Bedrock"; "10.0.0.1"; "10"; "45";
                     "n"]) true None) in
  fst w = Ok tt /\ pos (snd w) = 7 /\
  config_yml (snd w) =
    Some (<["bot-token" := VStr "token"]>
          (<["prefix" := VStr ";"]>
          (<["server-type" := VStr "bedrock"]>
          (<["server-ip" := VStr "10.0.0.1"]>
          (<["refresh-rate" := VInt 45]>
          (<["maintenance-mode-detection" := VNone]> ∅)))))).
Proof. vm_compute. repeat split. Qed.

(** An operator who only ever presses return never gets past the token. *)
Example token_never_given :
  fst (main (fun l => l) 100 (start (lines_then [] EmptyString) true None))
  = Diverge.
Proof. vm_compute. reflexivity. Qed.

(** * Beyond the claims *)

(** ** Computations that only use the terminal *)

Lemma terminal_only_refl w : terminal_only w w.
Proof.
  repeat split; auto. exists []. split; [by rewrite app_nil_r | constructor].
Qed.

Lemma terminal_only_trans w1 w2 w3 :
  terminal_only w1 w2 -> terminal_only w2 w3 -> terminal_only w1 w3.
Proof.
  intros (Hs & Hp & Hy & Hf & evs & Hc & He)
         (Hs' & Hp' & Hy' & Hf' & evs' & Hc' & He').
  repeat split; try congruence; [lia |].
  exists (evs ++ evs'). split; [by rewrite Hc', Hc, app_assoc |].
  by apply Forall_app.
Qed.

Lemma terminal_only_emit e w :
  is_dump e = false -> terminal_only w (emit e w).
Proof.
  intros He. repeat split; auto. exists [e]. split; [done |].
  by repeat constructor.
Qed.

Lemma terminal_only_advance w : terminal_only w (advance w).
Proof.
  repeat split; simpl; auto. exists []. split; [by rewrite app_nil_r | constructor].
Qed.

Lemma interactive_ret {A} (a : A) (Q : A -> Prop) :
  Q a -> interactive (ret a) Q.
Proof. intros H w. split; [apply terminal_only_refl | exact H]. Qed.

Lemma interactive_diverge {A} (Q : A -> Prop) : interactive diverge Q.
Proof. intros w. split; [apply terminal_only_refl | exact I]. Qed.

Lemma interactive_bind {A B} (m : M A) (k : A -> M B) Q R :
  interactive m Q ->
  (forall a, Q a -> interactive (k a) R) ->
  interactive (bind m k) R.
Proof.
  intros Hm Hk w. specialize (Hm w). unfold bind.
  destruct (m w) as [[a | e |] w1]; simpl in Hm; destruct Hm as [Ht Hr];
    [| by split .. ].
  specialize (Hk a Hr w1). destruct Hk as [Ht' Hr'].
  split; [by eapply terminal_only_trans | exact Hr'].
Qed.

Lemma interactive_weaken {A} (m : M A) (Q R : A -> Prop) :
  interactive m Q -> (forall a, Q a -> R a) -> interactive m R.
Proof.
  intros Hm HQ w. specialize (Hm w). destruct Hm as [Ht Hr].
  split; [done |]. destruct (fst (m w)); auto.
Qed.

Lemma interactive_input text : interactive (input text) (fun _ => True).
Proof.
  intros w. unfold input. destruct (stdin w (pos w)) as [line |] eqn:E; simpl.
  - split; [| done]. eapply terminal_only_trans;
      [by apply (terminal_only_emit (EPrompt text)) | apply terminal_only_advance].
  - split; [by apply terminal_only_emit | done].
Qed.

Lemma interactive_print text : interactive (print text) (fun _ => True).
Proof. intros w. split; [by apply terminal_only_emit | done]. Qed.

Lemma interactive_y_n fuel q : interactive (y_n fuel q) (fun _ => True).
Proof.
  induction fuel as [| fuel IH]; cbn [y_n]; [apply interactive_diverge |].
  eapply interactive_bind; [apply interactive_input |].
  intros ri _.
  destruct (str_in (lower ri) ["yes"; "y"]); [by apply interactive_ret |].
  destruct (str_in (lower ri) ["no"; "n"]); [by apply interactive_ret | done].
Qed.

(** What [get_info] returns: a line that is not empty, or, for an optional
    question only, the default. *)
Lemma interactive_get_info fuel question default optional :
  interactive (get_info fuel question default optional)
    (fun v =>
       (optional = true /\ v = default) \/
       exists line, v = VStr line /\ line <> EmptyString).
Proof.
  unfold get_info. generalize (default_text default optional) as dt. intros dt.
  induction fuel as [| fuel IH]; cbn [get_info_loop];
    [apply interactive_diverge |].
  eapply interactive_bind; [apply interactive_input |].
  intros result _. cbn [truthy]. rewrite negb_involutive.
  destruct (String.eqb result EmptyString) eqn:E.
  - destruct optional; simpl; [apply interactive_ret; auto | exact IH].
  - simpl. rewrite andb_false_r. apply interactive_ret. right.
    exists result. split; [done |]. by apply String.eqb_neq.
Qed.

Lemma str_in_elem x l : str_in x l = true <-> x ∈ l.
Proof.
  unfold str_in. rewrite existsb_exists. split.
  - intros (y & Hin & Heq). apply String.eqb_eq in Heq as ->.
    by apply list_elem_of_In.
  - intros H. exists x. split; [by apply list_elem_of_In | apply String.eqb_refl].
Qed.

Lemma interactive_ServerType fuel self :
  (exists d, ConfigOption.default self = VStr d) ->
  interactive (ServerType.prompt fuel self)
    (fun v => v = VStr "java" \/ v = VStr "bedrock").
Proof.
  intros [d Hd].
  induction fuel as [| fuel IH]; cbn [ServerType.prompt];
    [apply interactive_diverge |].
  eapply interactive_bind; [apply interactive_get_info |].
  intros result Hres.
  assert (exists s, result = VStr s) as [s ->].
  { destruct Hres as [[_ ->] | (line & -> & _)]; eauto. }
  eapply interactive_bind; [by apply (interactive_ret _ (fun _ => True)) |].
  intros r _. destruct (str_in r ["java"; "bedrock"]) eqn:E.
  - apply interactive_ret. apply str_in_java_bedrock in E as [-> | ->]; auto.
  - eapply interactive_bind; [apply interactive_print | by intros].
Qed.

Lemma interactive_RefreshRate fuel self :
  (exists z, ConfigOption.default self = VInt z) ->
  interactive (RefreshRate.prompt fuel self)
    (fun v => exists z, v = VInt z /\ (30 <= z)%Z).
Proof.
  intros [z0 Hd].
  induction fuel as [| fuel IH]; cbn [RefreshRate.prompt];
    [apply interactive_diverge |].
  eapply interactive_bind; [apply interactive_get_info |].
  intros result Hres.
  assert (Hint : (exists z, py_int result = Ok z) \/
                 (exists msg, py_int result = Raise (ValueError msg))).
  { destruct Hres as [[_ ->] | (line & -> & _)].
    - rewrite Hd. left. by exists z0.
    - unfold py_int. destruct (int_of_str line) as [z |]; eauto. }
  destruct Hint as [[z ->] | [msg ->]]; [| exact IH].
  destruct (30 <=? z)%Z eqn:E.
  - apply interactive_ret. exists z. split; [done |]. by apply Z.leb_le.
  - eapply interactive_bind; [apply interactive_print | by intros].
Qed.

(** Every [prompt] of the registry only uses the terminal, lets through
    well-formed values only, and raises nothing but [EOFError]. *)
Lemma interactive_prompt fuel o :
  o ∈ OPTIONS ->
  interactive (prompt fuel o) (fun v => well_formed o v = true).
Proof.
  intros H. each_option H; unfold prompt, well_formed;
    cbn [ConfigOption.kind].
  - unfold BotToken.prompt. eapply interactive_bind;
      [apply interactive_get_info |].
    intros v [[? _] | (line & -> & Hne)]; [discriminate |].
    apply interactive_ret. by apply negb_true_iff, String.eqb_neq.
  - unfold ConfigOption.prompt. eapply interactive_bind;
      [apply interactive_get_info |].
    intros v [[_ ->] | (line & -> & Hne)]; apply interactive_ret;
      [reflexivity | by apply negb_true_iff, String.eqb_neq].
  - eapply interactive_weaken; [apply interactive_ServerType; by eexists |].
    by intros v [-> | ->].
  - unfold ConfigOption.prompt. eapply interactive_bind;
      [apply interactive_get_info |].
    intros v [[? _] | (line & -> & Hne)]; [discriminate |].
    apply interactive_ret. by apply negb_true_iff, String.eqb_neq.
  - eapply interactive_weaken; [apply interactive_RefreshRate; by eexists |].
    intros v (z & -> & Hz). by apply Z.leb_le.
  - unfold MaintenceModeDetection.prompt. eapply interactive_bind;
      [apply interactive_y_n |].
    intros [|] _; cbn [negb]; [| by apply interactive_ret].
    eapply interactive_bind; [apply interactive_get_info |].
    intros v [[? _] | (line & -> & Hne)]; [discriminate |].
    apply interactive_ret. by apply negb_true_iff, String.eqb_neq.
Qed.


(** Property X6.  In any world and for any budget, the [prompt] of an
    option of the registry uses nothing but the terminal (it never writes
    config.yml); a value it returns is well formed for the option (a text
    that is not empty, ["java"] or ["bedrock"], an integer of at least 30,
    or [None] for the declined feature); and the only exception it raises is
    [EOFError], with the input at its end: no line an operator can type
    aborts it. *)
Theorem option_prompt_safe o fuel w :
  o ∈ OPTIONS ->
  terminal_only w (snd (prompt fuel o w)) /\
  match fst (prompt fuel o w) with
  | Ok v => well_formed o v = true
  | Raise e =>
    e = EOFError /\
    stdin (snd (prompt fuel o w)) (pos (snd (prompt fuel o w))) = None
  | Diverge => True
  end.
Proof. intros H. exact (interactive_prompt fuel o H w). Qed.

Lemma option_prompt_safe_witness :
  let o :=
    ConfigOption.mk CRefreshRate "refresh-rate"
      "Enter the amount of seconds to wait in between status refreshes"
      (VInt 60) true in
  let w := start (lines ["x"; "29"]) true None in
  terminal_only w (snd (prompt 5 o w)) /\
  match fst (prompt 5 o w) with
  | Ok v => well_formed o v = true
  | Raise e =>
    e = EOFError /\ stdin (snd (prompt 5 o w)) (pos (snd (prompt 5 o w))) = None
  | Diverge => True
  end.
Proof.
  intros o w. apply (option_prompt_safe o 5 w).
  rewrite OPTIONS_unfold. do 4 (apply elem_of_cons; right).
  apply list_elem_of_here.
Defined.

(** ** Filling a document at the terminal *)

Lemma interactive_ask_missing fuel opts : forall config : gmap string value,
  (forall k, k ∈ opts -> is_Some (get_option k)) ->
  interactive (ask_missing fuel opts config)
    (fun config' : gmap string value =>
       (forall k, k ∉ opts -> config' !! k = config !! k) /\
       (forall k o, k ∈ opts -> get_option k = Some o ->
          exists v, config' !! k = Some v /\ well_formed o v = true)).
Proof.
  induction opts as [| opt rest IH]; intros config H; cbn [ask_missing].
  - apply interactive_ret. split; [done |].
    intros k o Hk. by apply elem_of_nil in Hk.
  - destruct (H opt) as [o Ho]; [apply list_elem_of_here |]. rewrite Ho.
    eapply interactive_bind.
    { apply interactive_prompt. by apply get_option_elem in Ho as [? _]. }
    intros result Hres. eapply interactive_weaken.
    { apply IH. intros k Hk. apply H. by apply list_elem_of_further. }
    intros c [Hout Hin]. split.
    + intros k Hk. apply not_elem_of_cons in Hk as [Hne Hk].
      rewrite (Hout k Hk). by rewrite lookup_insert_ne.
    + intros k o' Hk Ho'. destruct (decide (k ∈ rest)) as [Hr | Hr];
        [by apply Hin |].
      apply elem_of_cons in Hk as [-> | Hk]; [| done].
      exists result. rewrite (Hout opt Hr), lookup_insert_eq.
      split; [done | congruence].
Qed.

(** On options of the registry, the loop of the first run is the loop that
    asks for missing options, run on their names. *)
Lemma ask_all_ask_missing fuel options : forall (config : gmap string value) w,
  (forall o, o ∈ options -> o ∈ OPTIONS) ->
  ask_all fuel options config w =
  ask_missing fuel (map ConfigOption.name options) config w.
Proof.
  induction options as [| o rest IH]; intros config w H; [done |].
  cbn [ask_all ask_missing map].
  rewrite get_option_name by (apply H, list_elem_of_here).
  unfold bind. destruct (prompt fuel o w) as [[v | e |] w1]; try done.
  apply IH. intros o' Ho'. by apply H, list_elem_of_further.
Qed.

(** ** Reconciliation, whichever way the gate is answered *)

Section ReconcileReturns.

Variable set_iter : list string -> list string.
Hypothesis set_iter_perm : forall l, set_iter l ≡ₚ l.

Lemma missing_opts_registry (config : gmap string value) k :
  k ∈ missing_opts set_iter config -> is_Some (get_option k).
Proof.
  intros [(o & Ho & <-) _]%(elem_of_missing set_iter set_iter_perm).
  rewrite get_option_name; eauto.
Qed.

Lemma ensure_config_keys_missing fuel (config : gmap string value) w :
  yaml_importable w = true ->
  missing_opts set_iter config <> [] ->
  ensure_config_keys set_iter fuel config w =
  match y_n fuel set_to_default_q
          (emit (EPrint ("There are missing options in your config file: "
                         +:+ join ", " (missing_opts set_iter config))) w) with
  | (Ok set_to_default, w2) =>
    match (if set_to_default
           then set_defaults (missing_opts set_iter config) config
           else ask_missing fuel (missing_opts set_iter config) config) w2 with
    | (Ok config', w3) =>
      (Ok config',
       emit (EPrint "Successfully updated config")
         (store config' (emit (EDump config') w3)))
    | (Raise e, w3) => (Raise e, w3)
    | (Diverge, w3) => (Diverge, w3)
    end
  | (Raise e, w2) => (Raise e, w2)
  | (Diverge, w2) => (Diverge, w2)
  end.
Proof.
  intros Hy Hne. unfold ensure_config_keys, bind, import_yaml. rewrite Hy.
  destruct (missing_opts set_iter config) as [| x rest]; [done |].
  unfold print at 1.
  by destruct (y_n fuel set_to_default_q _) as [[b | e |] w2].
Qed.

(** What is known whenever [ensure_config_keys] returns. *)
Lemma ensure_config_keys_returns fuel (config config' : gmap string value)
    w w' :
  ensure_config_keys set_iter fuel config w = (Ok config', w') ->
  yaml_importable w = true /\ yaml_importable w' = true /\
  stdin w' = stdin w /\ pos w <= pos w' /\
  (forall k,
     config' !! k =
     match config !! k with
     | Some v => Some v
     | None => config' !! k
     end) /\
  (forall k, get_option k = None -> config' !! k = config !! k) /\
  (forall o, o ∈ OPTIONS ->
     config !! ConfigOption.name o = None ->
     exists v,
       config' !! ConfigOption.name o = Some v /\
       (v = ConfigOption.default o \/ well_formed o v = true)) /\
  (missing_opts set_iter config = [] ->
     config' = config /\ config_yml w' = config_yml w) /\
  (missing_opts set_iter config <> [] -> config_yml w' = Some config').
Proof.
  intros Hrun.
  assert (Hy : yaml_importable w = true).
  { unfold ensure_config_keys, bind, import_yaml in Hrun.
    by destruct (yaml_importable w). }
  destruct (decide (missing_opts set_iter config = [])) as [Hnil | Hne].
  - unfold ensure_config_keys, bind, import_yaml in Hrun.
    rewrite Hy, Hnil in Hrun. inversion Hrun; subst. simpl.
    repeat split; auto; try done.
    + intros k. by destruct (config' !! k).
    + intros o Ho Hnone. exfalso.
      assert (Hin : ConfigOption.name o ∈ missing_opts set_iter config')
        by (apply (elem_of_missing set_iter set_iter_perm); eauto).
      rewrite Hnil in Hin. by apply elem_of_nil in Hin.
  - rewrite (ensure_config_keys_missing _ _ _ Hy Hne) in Hrun.
    pose proof (interactive_y_n fuel set_to_default_q
      (emit (EPrint ("There are missing options in your config file: "
                     +:+ join ", " (missing_opts set_iter config))) w))
      as [Hgate _].
    destruct (y_n fuel set_to_default_q _) as [[b | e |] w2]; try done.
    destruct Hgate as (Hs2 & Hp2 & Hy2 & _). simpl in Hs2, Hp2, Hy2.
    assert (Hfill :
      exists w3, (if b then set_defaults (missing_opts set_iter config) config
                  else ask_missing fuel (missing_opts set_iter config) config)
                   w2 = (Ok config', w3) /\
        terminal_only w2 w3 /\
        (forall k, k ∉ missing_opts set_iter config ->
           config' !! k = config !! k) /\
        (forall k o, k ∈ missing_opts set_iter config ->
           get_option k = Some o ->
           exists v, config' !! k = Some v /\
             (v = ConfigOption.default o \/ well_formed o v = true))).
    { destruct b.
      - destruct (set_defaults_spec (missing_opts set_iter config) config w2)
          as (c & Hc & Hl); [apply missing_opts_registry |].
        rewrite Hc in Hrun. inversion Hrun; subst c. exists w2.
        split; [done |]. split; [apply terminal_only_refl |]. split.
        + intros k Hk. by rewrite Hl, bool_decide_eq_false_2.
        + intros k o Hk Ho. rewrite Hl, bool_decide_eq_true_2, Ho by done.
          eexists. split; [done | by left].
      - pose proof (interactive_ask_missing fuel
          (missing_opts set_iter config) config
          (missing_opts_registry config) w2) as [Ht Hr].
        destruct (ask_missing fuel _ config w2) as [[c | e |] w3]; try done.
        inversion Hrun; subst c. exists w3. simpl in Ht, Hr.
        destruct Hr as [Hout Hin].
        split; [done |]. split; [exact Ht |]. split; [exact Hout |].
        intros k o Hk Ho. destruct (Hin k o Hk Ho) as (v & Hv & Hw). eauto. }
    destruct Hfill as (w3 & Hfill & (Hs3 & Hp3 & Hy3 & _) & Hout & Hin).
    rewrite Hfill in Hrun. inversion Hrun; subst. simpl.
    repeat split; try congruence; try lia.
    + intros k. destruct (config !! k) as [v |] eqn:Ek; [| done].
      rewrite Hout; [done |].
      intros [_ Hn]%(elem_of_missing set_iter set_iter_perm). congruence.
    + intros k Hk. apply Hout.
      intros Hm%missing_opts_registry. rewrite Hk in Hm. by destruct Hm.
    + intros o Ho Hnone. apply Hin; [| by apply get_option_name].
      apply (elem_of_missing set_iter set_iter_perm). eauto.
Qed.

End ReconcileReturns.

Section ReconcileExtras.

Variable set_iter : list string -> list string.
Hypothesis set_iter_perm : forall l, set_iter l ≡ₚ l.

(** Property X7.  Whenever [ensure_config_keys] returns, however the gate
    was answered: the document has every option name of the registry as a
    key, every key that was there has the value it had, a key that is no
    option name is as before (absent if it was absent), and either the
    document was written to config.yml or it is the document passed in and
    the file was not touched. *)
Theorem ensure_config_keys_complete
    fuel (config config' : gmap string value) w w' :
  ensure_config_keys set_iter fuel config w = (Ok config', w') ->
  (forall o, o ∈ OPTIONS -> is_Some (config' !! ConfigOption.name o)) /\
  (forall k v, config !! k = Some v -> config' !! k = Some v) /\
  (forall k, get_option k = None -> config' !! k = config !! k) /\
  (config_yml w' = Some config' \/
   config' = config /\ config_yml w' = config_yml w).
Proof.
  intros Hrun.
  destruct (ensure_config_keys_returns set_iter set_iter_perm _ _ _ _ _ Hrun)
    as (_ & _ & _ & _ & Hkeep & Hforeign & Hfill & Hnil & Hne).
  repeat split.
  - intros o Ho. destruct (config !! ConfigOption.name o) as [v |] eqn:E.
    + exists v. by rewrite Hkeep, E.
    + destruct (Hfill o Ho E) as (v & Hv & _). eauto.
  - intros k v Hk. by rewrite Hkeep, Hk.
  - exact Hforeign.
  - destruct (decide (missing_opts set_iter config = [])); auto.
Qed.

(** Property X8.  Reconciliation is idempotent: on the document it has just
    returned, in the world it has just left, [ensure_config_keys] finds
    nothing missing; it asks nothing, writes nothing and returns the same
    document, for any budget. *)
Theorem ensure_config_keys_idempotent
    fuel fuel' (config config' : gmap string value) w w' :
  ensure_config_keys set_iter fuel config w = (Ok config', w') ->
  ensure_config_keys set_iter fuel' config' w' =
    (Ok config', emit (EPrint "Config is up-to-date") w').
Proof.
  intros Hrun.
  destruct (ensure_config_keys_returns set_iter set_iter_perm _ _ _ _ _ Hrun)
    as (_ & Hy & _ & _ & Hkeep & _ & Hfill & _).
  unfold ensure_config_keys, bind, import_yaml. rewrite Hy.
  rewrite (missing_opts_nil set_iter set_iter_perm); [done |].
  intros o Ho. destruct (config !! ConfigOption.name o) as [v |] eqn:E.
  - exists v. by rewrite Hkeep, E.
  - destruct (Hfill o Ho E) as (v & Hv & _). eauto.
Qed.

(** Property X9.  When the gate is answered with no and the questions that
    follow are all answered, every option that was missing holds a value
    that is well formed for it, typed at its own [prompt] (so bot-token and
    server-ip are not [None], as they are on the other branch); the
    document is written once, after the last answer. *)
Theorem ensure_config_keys_asks_when_declined
    fuel (config config' : gmap string value) w w2 w' :
  missing_opts set_iter config <> [] ->
  y_n fuel set_to_default_q
    (emit (EPrint ("There are missing options in your config file: "
                   +:+ join ", " (missing_opts set_iter config))) w)
    = (Ok false, w2) ->
  ensure_config_keys set_iter fuel config w = (Ok config', w') ->
  (forall o, o ∈ OPTIONS ->
     config !! ConfigOption.name o = None ->
     exists v,
       config' !! ConfigOption.name o = Some v /\ well_formed o v = true) /\
  exists w3,
    ask_missing fuel (missing_opts set_iter config) config w2
      = (Ok config', w3) /\
    terminal_only w2 w3 /\
    w' = emit (EPrint "Successfully updated config")
           (store config' (emit (EDump config') w3)).
Proof.
  intros Hne Hgate Hrun.
  assert (Hy : yaml_importable w = true)
    by apply (ensure_config_keys_returns set_iter set_iter_perm _ _ _ _ _ Hrun).
  rewrite (ensure_config_keys_missing _ _ _ _ Hy Hne), Hgate in Hrun.
  pose proof (interactive_ask_missing fuel (missing_opts set_iter config)
    config (missing_opts_registry set_iter set_iter_perm config) w2)
    as [Ht Hr].
  destruct (ask_missing fuel _ config w2) as [[c | e |] w3]; try done.
  inversion Hrun; subst. simpl in Ht, Hr. destruct Hr as [_ Hin]. split.
  - intros o Ho Hnone. apply Hin; [| by apply get_option_name].
    apply (elem_of_missing set_iter set_iter_perm). eauto.
  - by exists w3.
Qed.

End ReconcileExtras.

Lemma ensure_config_keys_complete_witness :
  let w := start (lines ["y"]) true (Some partial_config) in
  let config' :=
    <["prefix" := VStr ";"]> (<["refresh-rate" := VInt 60]> partial_config) in
  let w' := snd (ensure_config_keys (fun l => l) 1 partial_config w) in
  (forall o, o ∈ OPTIONS -> is_Some (config' !! ConfigOption.name o)) /\
  (forall k v, partial_config !! k = Some v -> config' !! k = Some v) /\
  (forall k, get_option k = None -> config' !! k = partial_config !! k) /\
  (config_yml w' = Some config' \/
   config' = partial_config /\ config_yml w' = config_yml w).
Proof.
  intros w config' w'.
  apply (ensure_config_keys_complete (fun l => l) (fun l => reflexivity l)
           1 partial_config config' w w').
  vm_compute. reflexivity.
Defined.

Lemma ensure_config_keys_idempotent_witness :
  let w := start (lines ["y"]) true (Some partial_config) in
  let config' :=
    <["prefix" := VStr ";"]> (<["refresh-rate" := VInt 60]> partial_config) in
  let w' := snd (ensure_config_keys (fun l => l) 1 partial_config w) in
  ensure_config_keys (fun l => l) 0 config' w' =
    (Ok config', emit (EPrint "Config is up-to-date") w').
Proof.
  intros w config' w'.
  apply (ensure_config_keys_idempotent (fun l => l) (fun l => reflexivity l)
           1 0 partial_config config' w w').
  vm_compute. reflexivity.
Defined.

Lemma ensure_config_keys_asks_when_declined_witness :
  let w := start (lines ["n"; "!"; "45"]) true (Some partial_config) in
  let config' :=
    <["prefix" := VStr "!"]> (<["refresh-rate" := VInt 45]> partial_config) in
  let w' := snd (ensure_config_keys (fun l => l) 1 partial_config w) in
  let w2 :=
    asked 1 (set_to_default_q +:+ " (y/n): ")
      (emit (EPrint ("There are missing options in your config file: "
                     +:+ join ", " (missing_opts (fun l => l) partial_config)))
         w) in
  (forall o, o ∈ OPTIONS ->
     partial_config !! ConfigOption.name o = None ->
     exists v,
       config' !! ConfigOption.name o = Some v /\ well_formed o v = true) /\
  exists w3,
    ask_missing 1 (missing_opts (fun l => l) partial_config) partial_config w2
      = (Ok config', w3) /\
    terminal_only w2 w3 /\
    w' = emit (EPrint "Successfully updated config")
           (store config' (emit (EDump config') w3)).
Proof.
  intros w config' w' w2.
  apply (ensure_config_keys_asks_when_declined (fun l => l)
           (fun l => reflexivity l) 1 partial_config config' w w2 w').
  - vm_compute. discriminate.
  - vm_compute. reflexivity.
  - vm_compute. reflexivity.
Defined.

(** ** The gate, in general *)

Lemma str_in_app x l1 l2 : str_in x (l1 ++ l2) = str_in x l1 || str_in x l2.
Proof. unfold str_in. apply existsb_app. Qed.

Lemma y_n_skip fuel q a w :
  stdin w (pos w) = Some a ->
  str_in (lower a) ["yes"; "y"; "no"; "n"] = false ->
  y_n (S fuel) q w = y_n fuel q (asked 1 (q +:+ " (y/n): ") w).
Proof.
  intros Ha Hu.
  change ["yes"; "y"; "no"; "n"] with (["yes"; "y"] ++ ["no"; "n"]) in Hu.
  rewrite str_in_app in Hu. apply orb_false_iff in Hu as [Hy Hn].
  by rewrite y_n_S, (input_line _ _ _ Ha), Hy, Hn, asked_1.
Qed.

Lemma stdin_shift (P : string -> Prop) n text w :
  (forall i, i < S n -> exists l, stdin w (pos w + i) = Some l /\ P l) ->
  (exists l, stdin w (pos w) = Some l /\ P l) /\
  (forall i, i < n ->
     exists l, stdin (asked 1 text w) (pos (asked 1 text w) + i) = Some l /\ P l).
Proof.
  intros H. split.
  - rewrite <- (Nat.add_0_r (pos w)). apply H. lia.
  - intros i Hi. simpl. rewrite <- Nat.add_assoc. apply H. simpl. lia.
Qed.

Lemma asked_asked n text w : asked n text (asked 1 text w) = asked (S n) text w.
Proof. by rewrite <- asked_1, asked_S. Qed.

(** Property X1.  [y_n] goes on asking while the lines it reads are, in
    lower case, none of yes, y, no, n; the first line that is one of them
    decides, whatever its case: the result is [True] exactly for yes and y.
    If the input ends first, [EOFError] is raised at the next question; if
    such a line never comes, [y_n] does not return. *)
Theorem y_n_answers q :
  (forall n fuel a w,
     n < fuel ->
     (forall i, i < n ->
        exists l, stdin w (pos w + i) = Some l /\
                  str_in (lower l) ["yes"; "y"; "no"; "n"] = false) ->
     stdin w (pos w + n) = Some a ->
     str_in (lower a) ["yes"; "y"; "no"; "n"] = true ->
     y_n fuel q w =
       (Ok (str_in (lower a) ["yes"; "y"]), asked (S n) (q +:+ " (y/n): ") w)) /\
  (forall n fuel w,
     n < fuel ->
     (forall i, i < n ->
        exists l, stdin w (pos w + i) = Some l /\
                  str_in (lower l) ["yes"; "y"; "no"; "n"] = false) ->
     stdin w (pos w + n) = None ->
     y_n fuel q w =
       (Raise EOFError,
        emit (EPrompt (q +:+ " (y/n): ")) (asked n (q +:+ " (y/n): ") w))) /\
  (forall fuel w,
     (forall i, exists l, stdin w (pos w + i) = Some l /\
                  str_in (lower l) ["yes"; "y"; "no"; "n"] = false) ->
     fst (y_n fuel q w) = Diverge).
Proof.
  split; [| split].
  - induction n as [| n IH]; intros fuel a w Hf Hu Ha Hr;
      (destruct fuel as [| fuel]; [lia |]).
    + rewrite Nat.add_0_r in Ha. rewrite y_n_S, (input_line _ _ _ Ha), asked_1.
      change ["yes"; "y"; "no"; "n"] with (["yes"; "y"] ++ ["no"; "n"]) in Hr.
      rewrite str_in_app in Hr.
      destruct (str_in (lower a) ["yes"; "y"]); [done |].
      cbn [orb] in Hr. by rewrite Hr.
    + apply (stdin_shift _ _ (q +:+ " (y/n): ")) in Hu
        as [(l & Hl & Hlu) Hrest].
      rewrite (y_n_skip _ _ _ _ Hl Hlu).
      rewrite (IH fuel a); [by rewrite asked_asked | lia | done | | done].
      simpl. by rewrite <- Nat.add_assoc.
  - induction n as [| n IH]; intros fuel w Hf Hu Ha;
      (destruct fuel as [| fuel]; [lia |]).
    + rewrite Nat.add_0_r in Ha. rewrite y_n_S, (input_eof _ _ Ha).
      f_equal. unfold asked, emit. simpl. f_equal; [lia |].
      by rewrite app_nil_r.
    + apply (stdin_shift _ _ (q +:+ " (y/n): ")) in Hu
        as [(l & Hl & Hlu) Hrest].
      rewrite (y_n_skip _ _ _ _ Hl Hlu).
      rewrite (IH fuel); [by rewrite asked_asked | lia | done |].
      simpl. by rewrite <- Nat.add_assoc.
  - induction fuel as [| fuel IH]; intros w Hu; [done |].
    destruct (Hu 0) as (l & Hl & Hlu). rewrite Nat.add_0_r in Hl.
    rewrite (y_n_skip _ _ _ _ Hl Hlu). apply IH.
    intros i. simpl. rewrite <- Nat.add_assoc. apply Hu.
Qed.

Lemma y_n_answers_witness :
  let w := start (lines ["maybe"; "ok"; "YES"]) true None in
  let q := "Change another option?" in
  y_n 3 q w = (Ok (str_in (lower "YES") ["yes"; "y"]),
               asked 3 (q +:+ " (y/n): ") w) /\
  y_n 4 q (start (lines ["maybe"]) true None) =
    (Raise EOFError,
     emit (EPrompt (q +:+ " (y/n): "))
       (asked 1 (q +:+ " (y/n): ") (start (lines ["maybe"]) true None))) /\
  fst (y_n 9 q (start (lines_then [] "perhaps") true None)) = Diverge.
Proof.
  intros w q. destruct (y_n_answers q) as (Hans & Heof & Hblock).
  split; [| split].
  - apply (Hans 2 3 "YES" w); [lia | | reflexivity | reflexivity].
    intros i Hi. destruct i as [| [| i]]; [| | lia]; eexists; split;
      reflexivity.
  - apply (Heof 1 4); [lia | | reflexivity].
    intros i Hi. destruct i as [| i]; [| lia]. eexists; split; reflexivity.
  - apply Hblock. intros i. exists "perhaps". split; [| reflexivity].
    simpl. by destruct i as [| [| i]].
Defined.

(** ** The registry as a lookup table *)

(** Property X2.  [get_option] finds an option exactly by its name: it
    returns the option of the registry that has the key as its name, and
    [None] exactly for a key that is no option name; the names of the
    registry are pairwise different, so no option hides another, and the
    test is case sensitive. *)
Theorem get_option_spec key :
  (forall o,
     get_option key = Some o <-> o ∈ OPTIONS /\ ConfigOption.name o = key) /\
  (get_option key = None <-> key ∉ map ConfigOption.name OPTIONS) /\
  NoDup (map ConfigOption.name OPTIONS) /\
  get_option "Prefix" = None.
Proof.
  assert (Hiff : forall o, get_option key = Some o <->
                           o ∈ OPTIONS /\ ConfigOption.name o = key).
  { intros o. split; [apply get_option_elem |].
    intros [Ho <-]. by apply get_option_name. }
  split; [exact Hiff |]. split; [| split; [| reflexivity]].
  - split.
    + intros Hnone (o & -> & Ho)%list_elem_of_fmap.
      rewrite get_option_name in Hnone; done.
    + intros Hout. destruct (get_option key) as [o |] eqn:E; [| done].
      apply get_option_elem in E as [Ho <-]. exfalso. apply Hout.
      apply list_elem_of_fmap. eauto.
  - apply (bool_decide_unpack _). vm_compute. reflexivity.
Qed.

(** ** One option at a time *)

(** Property X3.  The prefix is asked once and never checked: whatever line
    comes is the answer as typed (blanks and capitals included), an empty
    line is the default [";"], and the end of the input is [EOFError]; one
    round of the loop is enough in every case. *)
Theorem prefix_prompt o :
  get_option "prefix" = Some o ->
  (forall fuel line w,
     stdin w (pos w) = Some line ->
     prompt (S fuel) o w =
       (Ok (VStr (if String.eqb line EmptyString then ";" else line)),
        asked 1 "Enter the prefix for the bot [;]: " w)) /\
  (forall fuel w,
     stdin w (pos w) = None ->
     prompt (S fuel) o w =
       (Raise EOFError,
        emit (EPrompt "Enter the prefix for the bot [;]: ") w)).
Proof.
  intros H. apply get_option_elem in H as [Hin Hname].
  each_option Hin; try discriminate. split.
  - intros fuel line w Hl. rewrite prompt_inherited by auto.
    cbn [ConfigOption.help ConfigOption.default ConfigOption.optional].
    rewrite (get_info_optional _ _ _ _ _ Hl).
    by destruct (String.eqb line EmptyString).
  - intros fuel w Hl. rewrite prompt_inherited by auto.
    cbn [ConfigOption.help ConfigOption.default ConfigOption.optional].
    by rewrite (get_info_eof _ _ _ _ _ Hl).
Qed.

Lemma prefix_prompt_witness :
  let o :=
    ConfigOption.mk CPrefix "prefix" "Enter the prefix for the bot"
      (VStr ";") true in
  let w := start (lines ["  MC "]) true None in
  prompt 1 o w =
    (Ok (VStr "  MC "), asked 1 "Enter the prefix for the bot [;]: " w) /\
  prompt 1 o (start (lines []) true None) =
    (Raise EOFError,
     emit (EPrompt "Enter the prefix for the bot [;]: ")
       (start (lines []) true None)).
Proof.
  intros o w. destruct (prefix_prompt o eq_refl) as [Hline Heof]. split.
  - apply (Hline 0 "  MC " w). reflexivity.
  - apply (Heof 0). reflexivity.
Defined.







(** ** The editor *)

Lemma interactive_pick_option fuel all_keys question :
  interactive (pick_option fuel all_keys question) (fun k => k ∈ all_keys).
Proof.
  induction fuel as [| fuel IH]; cbn [pick_option];
    [apply interactive_diverge |].
  eapply interactive_bind; [apply interactive_get_info |].
  intros v [[? _] | (line & -> & _)]; [discriminate |].
  eapply interactive_bind; [by apply (interactive_ret _ (fun _ => True)) |].
  intros k _. destruct (str_in k all_keys) eqn:E; [| exact IH].
  apply interactive_ret. by apply str_in_elem.
Qed.

Lemma edited_refl c : edited c c.
Proof. repeat split; auto. Qed.

Lemma edited_trans c1 c2 c3 : edited c1 c2 -> edited c2 c3 -> edited c1 c3.
Proof.
  intros (Hk & Hf & Hv) (Hk' & Hf' & Hv'). repeat split.
  - auto.
  - intros k Hn. by rewrite Hf', Hf.
  - intros k o v Ho H3. destruct (Hv' k o v Ho H3) as [H2 | Hw]; eauto.
Qed.

Lemma edited_insert (c : gmap string value) k o v :
  get_option k = Some o -> well_formed o v = true -> edited c (<[k := v]> c).
Proof.
  intros Ho Hw. repeat split.
  - intros k' Hs. destruct (decide (k = k')) as [-> | Hne];
      [by rewrite lookup_insert_eq | by rewrite lookup_insert_ne].
  - intros k' Hn. rewrite lookup_insert_ne; [done | congruence].
  - intros k' o' v' Ho' Hv'. destruct (decide (k = k')) as [-> | Hne].
    + rewrite lookup_insert_eq in Hv'. right. congruence.
    + rewrite lookup_insert_ne in Hv' by done. by left.
Qed.

Lemma get_option_of_name k :
  k ∈ map ConfigOption.name OPTIONS ->
  exists o, get_option k = Some o /\ o ∈ OPTIONS.
Proof.
  intros (o & -> & Ho)%list_elem_of_fmap. exists o.
  split; [by apply get_option_name | done].
Qed.

(** The editor only uses the terminal, and the document it hands back is an
    edit of the one it was given. *)
Lemma interactive_change_options fuel question :
  forall config : gmap string value,
    interactive
      (change_options fuel (map ConfigOption.name OPTIONS) question config)
      (edited config).
Proof.
  induction fuel as [| fuel IH]; intros config; cbn [change_options];
    [apply interactive_diverge |].
  eapply interactive_bind; [apply interactive_pick_option |].
  intros k (o & Ho & Hin)%get_option_of_name. rewrite Ho.
  eapply interactive_bind; [by apply interactive_prompt |].
  intros v Hv. eapply interactive_bind; [apply interactive_y_n |].
  intros again _. destruct again; cbn [negb].
  - eapply interactive_weaken; [apply IH |].
    intros c' Hc'. eapply edited_trans; [| exact Hc'].
    by eapply edited_insert.
  - apply interactive_ret. by eapply edited_insert.
Qed.

(** ** A whole run *)

Section Runs.

Variable set_iter : list string -> list string.
Hypothesis set_iter_perm : forall l, set_iter l ≡ₚ l.

Lemma run_setup_cases fuel w :
  run_setup set_iter fuel w =
  match fuel with
  | O => (Diverge, w)
  | S _ =>
    if yaml_importable w then configure set_iter fuel w
    else (Raise (NameError "update_deps"),
          emit (EPrint "Oh no! PyYAML is not installed. Trying to fix...") w)
  end.
Proof.
  destruct fuel as [| fuel]; [reflexivity |].
  destruct (yaml_importable w) eqn:Hy.
  - unfold run_setup, bind. by rewrite import_loop_present.
  - by apply run_setup_yaml_missing.
Qed.

Lemma configure_fresh fuel w :
  config_yml w = None ->
  configure set_iter fuel w =
  match ask_all fuel OPTIONS ∅
          (emit (EPrint "Config file not found, initiating setup...") w) with
  | (Ok c, w1) =>
    (Ok tt,
     emit (EPrint "Successfully created and setup config")
       (store c (emit (EDump c) w1)))
  | (Raise e, w1) => (Raise e, w1)
  | (Diverge, w1) => (Diverge, w1)
  end.
Proof.
  intros Hf. unfold configure, bind, isfile_config. rewrite Hf.
  rewrite bool_decide_eq_false_2 by (intros [d Hd]; discriminate).
  unfold print at 1.
  by destruct (ask_all fuel OPTIONS ∅ _) as [[c | e |] w1].
Qed.

Lemma configure_existing fuel (config : gmap string value) w :
  yaml_importable w = true ->
  config_yml w = Some config ->
  configure set_iter fuel w =
  match ensure_config_keys set_iter fuel config w with
  | (Ok c1, w1) =>
    match y_n fuel "Change info in config file?" w1 with
    | (Ok true, w2) =>
      match change_options fuel (map ConfigOption.name OPTIONS)
              edit_question c1 w2 with
      | (Ok c2, w3) =>
        (Ok tt,
         emit (EPrint "Successfully updated your config")
           (store c2 (emit (EDump c2) w3)))
      | (Raise e, w3) => (Raise e, w3)
      | (Diverge, w3) => (Diverge, w3)
      end
    | (Ok false, w2) => (Ok tt, w2)
    | (Raise e, w2) => (Raise e, w2)
    | (Diverge, w2) => (Diverge, w2)
    end
  | (Raise e, w1) => (Raise e, w1)
  | (Diverge, w1) => (Diverge, w1)
  end.
Proof.
  intros Hy Hf. unfold configure, bind, isfile_config. rewrite Hf.
  rewrite bool_decide_eq_true_2 by eauto.
  unfold run_config_adjustments, bind, import_yaml, load_config.
  rewrite Hy, Hf.
  destruct (ensure_config_keys set_iter fuel config w) as [[c1 | e |] w1];
    try done.
  by destruct (y_n fuel _ w1) as [[[|] | e |] w2].
Qed.

Lemma ensure_config_keys_raises fuel (config : gmap string value) w e w' :
  yaml_importable w = true ->
  ensure_config_keys set_iter fuel config w = (Raise e, w') ->
  e = EOFError /\ stdin w' (pos w') = None.
Proof.
  intros Hy Hrun.
  destruct (decide (missing_opts set_iter config = [])) as [Hnil | Hne].
  { unfold ensure_config_keys, bind, import_yaml in Hrun.
    rewrite Hy, Hnil in Hrun. discriminate. }
  rewrite (ensure_config_keys_missing _ _ _ _ Hy Hne) in Hrun.
  pose proof (interactive_y_n fuel set_to_default_q
    (emit (EPrint ("There are missing options in your config file: "
                   +:+ join ", " (missing_opts set_iter config))) w))
    as [_ Hgate].
  destruct (y_n fuel set_to_default_q _) as [[b | e2 |] w2]; simpl in Hgate;
    [| by inversion Hrun; subst | discriminate].
  destruct b.
  - destruct (set_defaults_spec (missing_opts set_iter config) config w2)
      as (c & Hc & _); [apply (missing_opts_registry set_iter set_iter_perm) |].
    rewrite Hc in Hrun. discriminate.
  - pose proof (interactive_ask_missing fuel (missing_opts set_iter config)
      config (missing_opts_registry set_iter set_iter_perm config) w2)
      as [_ Hr].
    destruct (ask_missing fuel _ config w2) as [[c | e3 |] w3]; simpl in Hr;
      [discriminate | by inversion Hrun; subst | discriminate].
Qed.

(** What a first run leaves behind when it returns. *)
Lemma configure_fresh_returns fuel w w' :
  config_yml w = None ->
  configure set_iter fuel w = (Ok tt, w') ->
  exists (d : gmap string value) w1,
    (forall o, o ∈ OPTIONS ->
       exists v, d !! ConfigOption.name o = Some v /\ well_formed o v = true) /\
    (forall k, get_option k = None -> d !! k = None) /\
    terminal_only w w1 /\
    w' = emit (EPrint "Successfully created and setup config")
           (store d (emit (EDump d) w1)).
Proof.
  intros Hf Hrun. rewrite (configure_fresh _ _ Hf) in Hrun.
  rewrite ask_all_ask_missing in Hrun by done.
  pose proof (interactive_ask_missing fuel (map ConfigOption.name OPTIONS) ∅)
    as Hask.
  destruct (Hask (fun k Hk =>
              match get_option_of_name k Hk with
              | ex_intro _ o (conj Ho _) => ex_intro _ o Ho
              end)
              (emit (EPrint "Config file not found, initiating setup...") w))
    as [Ht Hr].
  destruct (ask_missing fuel _ ∅ _) as [[c | e |] w1]; try discriminate.
  inversion Hrun; subst. cbn [fst snd] in Ht, Hr. destruct Hr as [Hout Hin].
  exists c, w1. split; [| split; [| split; [| reflexivity]]].
  - intros o Ho. apply Hin; [| by apply get_option_name].
    apply list_elem_of_fmap. eauto.
  - intros k Hk. rewrite Hout; [done |].
    intros (o & Ho & _)%get_option_of_name. congruence.
  - eapply terminal_only_trans; [| exact Ht]. by apply terminal_only_emit.
Qed.

(** What a run on an existing file leaves behind when it returns. *)
Lemma configure_existing_returns fuel (config : gmap string value) w w' :
  yaml_importable w = true ->
  config_yml w = Some config ->
  configure set_iter fuel w = (Ok tt, w') ->
  exists d : gmap string value,
    config_yml w' = Some d /\
    (forall o, o ∈ OPTIONS -> is_Some (d !! ConfigOption.name o)) /\
    (forall k, is_Some (config !! k) -> is_Some (d !! k)) /\
    (forall k, get_option k = None -> d !! k = config !! k).
Proof.
  intros Hy Hf Hrun. rewrite (configure_existing _ _ _ Hy Hf) in Hrun.
  destruct (ensure_config_keys set_iter fuel config w) as [[c1 | e |] w1]
    eqn:Hens; try discriminate.
  destruct (ensure_config_keys_returns set_iter set_iter_perm _ _ _ _ _ Hens)
    as (_ & _ & _ & _ & Hkeep & Hforeign & Hfill & Hnil & Hne).
  assert (Hall : forall o, o ∈ OPTIONS -> is_Some (c1 !! ConfigOption.name o)).
  { intros o Ho. destruct (config !! ConfigOption.name o) as [v |] eqn:E.
    - exists v. by rewrite Hkeep, E.
    - destruct (Hfill o Ho E) as (v & Hv & _). eauto. }
  assert (Hsome : forall k, is_Some (config !! k) -> is_Some (c1 !! k)).
  { intros k [v Hv]. exists v. by rewrite Hkeep, Hv. }
  assert (Hfile : config_yml w1 = Some c1).
  { destruct (decide (missing_opts set_iter config = [])) as [E | E]; auto.
    destruct (Hnil E) as [-> ->]. done. }
  pose proof (interactive_y_n fuel "Change info in config file?" w1)
    as [(_ & _ & _ & Hf2 & _) _].
  destruct (y_n fuel _ w1) as [[[|] | e |] w2]; try discriminate.
  - pose proof (interactive_change_options fuel edit_question c1 w2)
      as [_ Hed].
    destruct (change_options fuel _ _ c1 w2) as [[c2 | e |] w3];
      try discriminate.
    inversion Hrun; subst. simpl in Hed. destruct Hed as (Hk & Hfo & _).
    exists c2. repeat split; auto.
    intros k Hn. by rewrite Hfo, Hforeign.
  - inversion Hrun; subst. simpl in Hf2. exists c1.
    repeat split; auto. congruence.
Qed.

Lemma configure_raises fuel w e w' :
  yaml_importable w = true ->
  configure set_iter fuel w = (Raise e, w') ->
  e = EOFError /\ stdin w' (pos w') = None.
Proof.
  intros Hy Hrun. destruct (config_yml w) as [config |] eqn:Hf.
  - rewrite (configure_existing _ _ _ Hy Hf) in Hrun.
    destruct (ensure_config_keys set_iter fuel config w) as [[c1 | e1 |] w1]
      eqn:Hens; [| | discriminate].
    + assert (Hr := proj2 (interactive_y_n fuel "Change info in config file?" w1)).
      destruct (y_n fuel _ w1) as [[[|] | e2 |] w2]; simpl in Hr;
        [| discriminate | by inversion Hrun; subst | discriminate].
      assert (Hed := proj2 (interactive_change_options fuel edit_question c1 w2)).
      destruct (change_options fuel _ _ c1 w2) as [[c2 | e3 |] w3];
        simpl in Hed; [discriminate | by inversion Hrun; subst | discriminate].
    + inversion Hrun; subst. by eapply ensure_config_keys_raises.
  - rewrite (configure_fresh _ _ Hf) in Hrun.
    rewrite ask_all_ask_missing in Hrun by done.
    pose proof (interactive_ask_missing fuel (map ConfigOption.name OPTIONS) ∅)
      as Hask.
    destruct (Hask (fun k Hk =>
                match get_option_of_name k Hk with
                | ex_intro _ o (conj Ho _) => ex_intro _ o Ho
                end)
                (emit (EPrint "Config file not found, initiating setup...") w))
      as [_ Hr].
    destruct (ask_missing fuel _ ∅ _) as [[c | e1 |] w1]; simpl in Hr;
      [discriminate | by inversion Hrun; subst | discriminate].
Qed.

(** Property X10.  A first run that returns has written config.yml once,
    as its last action before the closing message, and the document in it
    has exactly the option names of the registry as keys, each with a value
    that is well formed for its option: the token and the address are texts
    that are not empty, the server type is ["java"] or ["bedrock"], the
    refresh rate is an integer of at least 30. *)
Theorem first_run_document fuel w w' :
  config_yml w = None ->
  run_setup set_iter fuel w = (Ok tt, w') ->
  exists (d : gmap string value) w1,
    config_yml w' = Some d /\
    (forall o, o ∈ OPTIONS ->
       exists v, d !! ConfigOption.name o = Some v /\ well_formed o v = true) /\
    (forall k, get_option k = None -> d !! k = None) /\
    terminal_only w w1 /\
    w' = emit (EPrint "Successfully created and setup config")
           (store d (emit (EDump d) w1)).
Proof.
  intros Hf Hrun. rewrite run_setup_cases in Hrun.
  destruct fuel as [| fuel]; [discriminate |].
  destruct (yaml_importable w); [| discriminate].
  destruct (configure_fresh_returns _ _ _ Hf Hrun)
    as (d & w1 & Hwf & Hno & Ht & ->).
  exists d, w1. split; [reflexivity |]. by split; [| split; [| split]].
Qed.

(** Property X11.  A run on a file that has every option name, in which the
    operator declines to change anything, ends well in the world the gate
    left: only the terminal was used, and config.yml still holds the
    document it held. *)
Theorem review_without_change fuel (config : gmap string value) w w2 :
  yaml_importable w = true ->
  config_yml w = Some config ->
  (forall o, o ∈ OPTIONS -> is_Some (config !! ConfigOption.name o)) ->
  y_n (S fuel) "Change info in config file?"
    (emit (EPrint "Config is up-to-date") w) = (Ok false, w2) ->
  run_setup set_iter (S fuel) w = (Ok tt, w2) /\
  config_yml w2 = Some config /\
  terminal_only w w2.
Proof.
  intros Hy Hf Hall Hgate.
  assert (Hens : ensure_config_keys set_iter (S fuel) config w =
                 (Ok config, emit (EPrint "Config is up-to-date") w)).
  { unfold ensure_config_keys, bind, import_yaml.
    by rewrite Hy, (missing_opts_nil set_iter set_iter_perm). }
  assert (Ht : terminal_only w w2).
  { eapply terminal_only_trans;
      [by apply (terminal_only_emit (EPrint "Config is up-to-date")) |].
    pose proof (interactive_y_n (S fuel) "Change info in config file?"
                  (emit (EPrint "Config is up-to-date") w)) as [H _].
    by rewrite Hgate in H. }
  split; [| split; [| exact Ht]].
  - rewrite run_setup_cases, Hy, (configure_existing _ _ _ Hy Hf), Hens.
    by rewrite Hgate.
  - destruct Ht as (_ & _ & _ & -> & _). exact Hf.
Qed.

(** Property X12.  A run on an existing file that returns leaves a file
    whose document has every option name of the registry; no key that was
    in the file is lost, and a key that is no option name has the value it
    had: neither reconciliation nor the editor touches it. *)
Theorem review_run_document fuel (config : gmap string value) w w' :
  config_yml w = Some config ->
  run_setup set_iter fuel w = (Ok tt, w') ->
  exists d : gmap string value,
    config_yml w' = Some d /\
    (forall o, o ∈ OPTIONS -> is_Some (d !! ConfigOption.name o)) /\
    (forall k, is_Some (config !! k) -> is_Some (d !! k)) /\
    (forall k, get_option k = None -> d !! k = config !! k).
Proof.
  intros Hf Hrun. rewrite run_setup_cases in Hrun.
  destruct fuel as [| fuel]; [discriminate |].
  destruct (yaml_importable w) eqn:Hy; [| discriminate].
  by eapply configure_existing_returns.
Qed.

(** Property X13.  The abort of line 273 cannot happen: in no world and for
    no value of [loops] does the import loop raise [OSError].  With [yaml]
    missing, [main] prints its greeting and the notice and then stops with
    [NameError] at the call of [update_deps]; it reads no line, writes no
    file and does not print its closing line. *)
Theorem main_without_yaml fuel w :
  (forall loops msg,
     fst (import_loop fuel loops w) <> Raise (OSError msg)) /\
  (yaml_importable w = false ->
   main set_iter (S fuel) w =
     (Raise (NameError "update_deps"),
      emit (EPrint "Oh no! PyYAML is not installed. Trying to fix...")
        (emit (EPrint "Starting...") w))).
Proof.
  split.
  - intros loops msg. destruct fuel as [| fuel]; [done |].
    cbn [import_loop]. destruct (loops <? 2)%Z; [| done].
    unfold bind, try_except, import_yaml, print, update_deps, raise, ret.
    cbv beta. by destruct (yaml_importable w).
  - intros Hy. unfold main, bind. unfold print at 1.
    rewrite run_setup_cases. cbn [yaml_importable emit]. by rewrite Hy.
Qed.

(** Property X14.  However a run goes, [main] raises one of two
    exceptions only: [EOFError], when [yaml] is there and the input has
    come to its end at a question, or the [NameError] of [update_deps],
    when [yaml] is missing.  No line that an operator types makes the
    script fail.  (Reading and writing config.yml are taken to succeed.) *)
Theorem main_exceptions fuel w e w' :
  main set_iter fuel w = (Raise e, w') ->
  yaml_importable w = true /\ e = EOFError /\ stdin w' (pos w') = None \/
  yaml_importable w = false /\ e = NameError "update_deps".
Proof.
  unfold main, bind. unfold print at 1. rewrite run_setup_cases.
  destruct fuel as [| fuel]; [discriminate |]. cbn [yaml_importable emit].
  destruct (yaml_importable w) eqn:Hy.
  - destruct (configure set_iter (S fuel) _) as [[[] | e1 |] w1] eqn:Hc;
      [discriminate | | discriminate].
    intros H. inversion H; subst. left. split; [done |].
    eapply configure_raises; [| exact Hc]. exact Hy.
  - intros H. inversion H; subst. by right.
Qed.

(** Property X15.  When [main] returns, the last thing on the console is
    its closing line, and config.yml exists and holds a document with every
    option name of the registry, whether the file was there before or
    not. *)
Theorem main_returns fuel w w' :
  main set_iter fuel w = (Ok tt, w') ->
  (exists evs,
     console w' = evs ++ [EPrint "Done. You may now run the bot."]) /\
  exists d : gmap string value,
    config_yml w' = Some d /\
    forall o, o ∈ OPTIONS -> is_Some (d !! ConfigOption.name o).
Proof.
  unfold main, bind. unfold print at 1.
  destruct (run_setup set_iter fuel _) as [[[] | e |] w1] eqn:Hrun;
    [| discriminate | discriminate].
  intros H. inversion H; subst. split; [by eexists |].
  rewrite run_setup_cases in Hrun.
  destruct fuel as [| fuel]; [discriminate |]. cbn [yaml_importable emit] in Hrun.
  destruct (yaml_importable w) eqn:Hy; [| discriminate].
  destruct (config_yml w) as [config |] eqn:Hf.
  - destruct (configure_existing_returns (S fuel) config
                (emit (EPrint "Starting...") w) w1 Hy Hf Hrun)
      as (d & Hd & Hall & _).
    exists d. by split.
  - destruct (configure_fresh_returns (S fuel)
                (emit (EPrint "Starting...") w) w1 Hf Hrun)
      as (d & w2 & Hwf & _ & _ & ->).
    exists d. split; [done |].
    intros o Ho. destruct (Hwf o Ho) as (v & Hv & _). eauto.
Qed.

End Runs.

Lemma first_run_document_witness :
  let w :=
    start (lines ["token"; EmptyString; "Bedrock"; "10.0.0.1"; "10"; "45"; "n"])
      true None in
  let w' := snd (run_setup (fun l => l) 2 w) in
  exists (d : gmap string value) w1,
    config_yml w' = Some d /\
    (forall o, o ∈ OPTIONS ->
       exists v, d !! ConfigOption.name o = Some v /\ well_formed o v = true) /\
    (forall k, get_option k = None -> d !! k = None) /\
    terminal_only w w1 /\
    w' = emit (EPrint "Successfully created and setup config")
           (store d (emit (EDump d) w1)).
Proof.
  intros w w'.
  apply (first_run_document (fun l => l) 2 w w').
  - reflexivity.
  - vm_compute. reflexivity.
Defined.

Lemma review_without_change_witness :
  let w := start (lines ["N"]) true (Some full_config) in
  let w2 :=
    asked 1 "Change info in config file? (y/n): "
      (emit (EPrint "Config is up-to-date") w) in
  run_setup (fun l => l) 1 w = (Ok tt, w2) /\
  config_yml w2 = Some full_config /\
  terminal_only w w2.
Proof.
  intros w w2.
  apply (review_without_change (fun l => l) (fun l => reflexivity l)
           0 full_config w w2).
  - reflexivity.
  - reflexivity.
  - intros o H. each_option H; vm_compute; eauto.
  - vm_compute. reflexivity.
Defined.

Lemma review_run_document_witness :
  let w := start (lines ["y"; "y"; "Prefix"; "?"; "n"]) true (Some partial_config) in
  let w' := snd (run_setup (fun l => l) 1 w) in
  exists d : gmap string value,
    config_yml w' = Some d /\
    (forall o, o ∈ OPTIONS -> is_Some (d !! ConfigOption.name o)) /\
    (forall k, is_Some (partial_config !! k) -> is_Some (d !! k)) /\
    (forall k, get_option k = None -> d !! k = partial_config !! k).
Proof.
  intros w w'.
  apply (review_run_document (fun l => l) (fun l => reflexivity l)
           1 partial_config w w').
  - reflexivity.
  - vm_compute. reflexivity.
Defined.

Lemma main_without_yaml_witness :
  let w := start (lines ["token"]) false None in
  (forall loops msg, fst (import_loop 3 loops w) <> Raise (OSError msg)) /\
  main (fun l => l) 4 w =
    (Raise (NameError "update_deps"),
     emit (EPrint "Oh no! PyYAML is not installed. Trying to fix...")
       (emit (EPrint "Starting...") w)).
Proof.
  intros w. destruct (main_without_yaml (fun l => l) 3 w) as [Hnever Hstop].
  split; [exact Hnever |]. apply Hstop. reflexivity.
Defined.

Lemma main_exceptions_witness :
  let w := start (lines ["token"; "!"; "pe"]) true None in
  let w' := snd (main (fun l => l) 3 w) in
  yaml_importable w = true /\ EOFError = EOFError /\ stdin w' (pos w') = None \/
  yaml_importable w = false /\ EOFError = NameError "update_deps".
Proof.
  intros w w'.
  apply (main_exceptions (fun l => l) (fun l => reflexivity l) 3 w EOFError w').
  vm_compute. reflexivity.
Defined.

Lemma main_returns_witness :
  let w :=
    start (lines ["token"; EmptyString; "Bedrock"; "10.0.0.1"; "10"; "45"; "n"])
      true None in
  let w' := snd (main (fun l => l) 2 w) in
  (exists evs,
     console w' = evs ++ [EPrint "Done. You may now run the bot."]) /\
  exists d : gmap string value,
    config_yml w' = Some d /\
    forall o, o ∈ OPTIONS -> is_Some (d !! ConfigOption.name o).
Proof.
  intros w w'.
  apply (main_returns (fun l => l) (fun l => reflexivity l) 2 w w').
  vm_compute. reflexivity.
Defined.

(** ** The two building blocks, as the script uses them *)

(** Property X16.  [get_info], for any question, default and flag: it uses
    nothing but the terminal; what it returns is a line that is not empty,
    or the default, and the default only for an optional question; and it
    raises nothing but [EOFError], with the input at its end. *)
Theorem get_info_safe fuel question default optional w :
  terminal_only w (snd (get_info fuel question default optional w)) /\
  match fst (get_info fuel question default optional w) with
  | Ok v =>
    (optional = true /\ v = default) \/
    exists line, v = VStr line /\ line <> EmptyString
  | Raise e =>
    e = EOFError /\
    stdin (snd (get_info fuel question default optional w))
      (pos (snd (get_info fuel question default optional w))) = None
  | Diverge => True
  end.
Proof. exact (interactive_get_info fuel question default optional w). Qed.

(** Property X17.  The editor, started on the names of the registry: it
    uses nothing but the terminal (the write comes after it); the option it
    looks up always exists, so the only exception is [EOFError] at the end
    of the input; and the document it hands back is an edit of the one it
    got: no key lost, keys that are no option names untouched, and every
    changed value well formed for its option. *)
Theorem change_options_edits fuel (config : gmap string value) w :
  terminal_only w
    (snd (change_options fuel (map ConfigOption.name OPTIONS) edit_question
            config w)) /\
  match fst (change_options fuel (map ConfigOption.name OPTIONS) edit_question
               config w) with
  | Ok config' => edited config config'
  | Raise e =>
    e = EOFError /\
    stdin (snd (change_options fuel (map ConfigOption.name OPTIONS)
                  edit_question config w))
      (pos (snd (change_options fuel (map ConfigOption.name OPTIONS)
                   edit_question config w))) = None
  | Diverge => True
  end.
Proof. exact (interactive_change_options fuel edit_question config w). Qed.

Lemma get_option_spec_witness :
  (forall o,
     get_option "server-ip" = Some o <->
     o ∈ OPTIONS /\ ConfigOption.name o = "server-ip") /\
  (get_option "server-ip" = None <->
   "server-ip" ∉ map ConfigOption.name OPTIONS) /\
  NoDup (map ConfigOption.name OPTIONS) /\
  get_option "Prefix" = None.
Proof. exact (get_option_spec "server-ip"). Defined.

Lemma get_info_safe_witness :
  let w := start (lines [EmptyString; "mc.example.org"]) true None in
  let r := get_info 2 "Enter the Minecraft server ip to display status for"
             VNone false w in
  terminal_only w (snd r) /\
  match fst r with
  | Ok v =>
    (false = true /\ v = VNone) \/
    exists line, v = VStr line /\ line <> EmptyString
  | Raise e => e = EOFError /\ stdin (snd r) (pos (snd r)) = None
  | Diverge => True
  end.
Proof.
  intros w r.
  exact (get_info_safe 2 "Enter the Minecraft server ip to display status for"
           VNone false w).
Defined.

Lemma change_options_edits_witness :
  let w := start (lines ["nope"; "PREFIX"; "?"; "n"]) true None in
  let r :=
    change_options 2 (map ConfigOption.name OPTIONS) edit_question
      partial_config w in
  fst r = Ok (<["prefix" := VStr "?"]> partial_config) /\
  terminal_only w (snd r) /\
  match fst r with
  | Ok config' => edited partial_config config'
  | Raise e => e = EOFError /\ stdin (snd r) (pos (snd r)) = None
  | Diverge => True
  end.
Proof.
  intros w r. split; [vm_compute; reflexivity |].
  exact (change_options_edits 2 partial_config w).
Defined.
